(** * thorlabs_cam: the frame queue, the acquisition loop and the controller

    A shallow embedding of [thorlabs_cam/thorlabs_cam.py].

    - Python control flow that can raise or wait is written in the
      [outcome] monad: a call returns, raises an exception, or waits on a
      condition variable.
    - [CircularQueue] subclasses the standard library's [queue.Queue]; the
      inherited methods ([_qsize], [_put], [_get], [get], [get_nowait]) are
      written out as CPython's [Lib/queue.py] has them.
    - Every queue method runs under the queue's mutex, so the producer
      thread and the consumer thread are modelled by interleaving whole
      method calls.
    - The vendor SDK is external: its calls are recorded as events of a
      log, and an oracle says which call fails. *)

From Stdlib Require Import ZArith Lia.
From stdpp Require Import base tactics option list sorting.

Local Open Scope Z_scope.

(** ** Exceptions and outcomes *)

Inductive exn : Type :=
| QueueEmpty        (* queue.Empty *)
| QueueFull         (* queue.Full *)
| IndexError
| ConnectionError
| RuntimeError
| ValueError
| AttributeError
| SdkError.         (* any exception raised inside thorlabs_tsi_sdk *)

Inductive outcome (A : Type) : Type :=
| Return (a : A)
| Raise (e : exn)
| Block.            (* the call waits on a condition variable *)

Arguments Return {A} a.
Arguments Raise {A} e.
Arguments Block {A}.

Definition bind {A B : Type} (m : outcome A) (k : A -> outcome B) : outcome B :=
  match m with
  | Return a => k a
  | Raise e => Raise e
  | Block => Block
  end.

Notation "x <- m ;; k" := (bind m (fun x => k))
  (at level 100, m at next level, right associativity).

(** A call into the SDK returns or raises. *)
Definition sdk_result (A : Type) : Type := (exn + A)%type.

Definition of_sdk {A : Type} (r : sdk_result A) : outcome A :=
  match r with
  | inl e => Raise e
  | inr a => Return a
  end.

(** ** queue.Queue and CircularQueue *)

Section Queue.

Context {A : Type}.

(** [queue.Queue]: [maxsize] and the deque [queue]; the left end is the
    head of the list. *)
Record Queue : Type := mkQueue { maxsize : Z; queue : list A }.

(** [CircularQueue(maxsize=n)]: [Queue.__init__] stores [maxsize] and makes
    an empty deque. *)
Definition CircularQueue (n : Z) : Queue := mkQueue n [].

(** [Queue._qsize]: [len(self.queue)]. *)
Definition _qsize (q : Queue) : Z := Z.of_nat (length (queue q)).

(** [Queue._put]: [self.queue.append(item)]. *)
Definition _put (q : Queue) (item : A) : Queue :=
  mkQueue (maxsize q) (queue q ++ [item]).

(** [Queue._get]: [self.queue.popleft()]; an empty deque raises
    [IndexError]. *)
Definition _get (q : Queue) : outcome (A * Queue) :=
  match queue q with
  | [] => Raise IndexError
  | x :: rest => Return (x, mkQueue (maxsize q) rest)
  end.

(** [Queue.get(block, timeout=None)]. *)
Definition get (q : Queue) (block : bool) : outcome (A * Queue) :=
  if negb block then
    if _qsize q =? 0 then Raise QueueEmpty else _get q
  else
    if _qsize q =? 0 then Block else _get q.

(** [Queue.get_nowait]: [self.get(block=False)]. *)
Definition get_nowait (q : Queue) : outcome (A * Queue) := get q false.

(** [CircularQueue.put]: [block] is ignored. *)
Definition put (q : Queue) (item : A) (block : bool) : outcome Queue :=
  q1 <- (if 0 <? maxsize q then
           if maxsize q <=? _qsize q then
             match _get q with
             | Return (_, q') => Return q'
             | Raise QueueEmpty => Return q      (* except queue.Empty: pass *)
             | Raise e => Raise e
             | Block => Block
             end
           else Return q
         else Return q) ;;
  Return (_put q1 item).

(** [CircularQueue.put_nowait]: [self.put(item, block=False)]. *)
Definition put_nowait (q : Queue) (item : A) : outcome Queue := put q item false.

(** [n] successive [put_nowait] calls, one per item of [l], in order. *)
Fixpoint put_all (q : Queue) (l : list A) : outcome Queue :=
  match l with
  | [] => Return q
  | x :: r => q' <- put_nowait q x ;; put_all q' r
  end.

(** An interleaving of producer and consumer calls on one queue. *)
Inductive op : Type :=
| Put (x : A)
| Take.

(** The items put by a sequence of calls, in order. *)
Fixpoint puts_of (ops : list op) : list A :=
  match ops with
  | [] => []
  | Put x :: r => x :: puts_of r
  | Take :: r => puts_of r
  end.

(** Runs the calls in order. A [Take] is [get_nowait]; the caller catches
    [queue.Empty] and records [None] for it. *)
Fixpoint run_ops (q : Queue) (ops : list op) : outcome (Queue * list (option A)) :=
  match ops with
  | [] => Return (q, [])
  | Put x :: r => q' <- put_nowait q x ;; run_ops q' r
  | Take :: r =>
      match get_nowait q with
      | Return (x, q') => rest <- run_ops q' r ;; Return (rest.1, Some x :: rest.2)
      | Raise QueueEmpty => rest <- run_ops q r ;; Return (rest.1, None :: rest.2)
      | Raise e => Raise e
      | Block => Block
      end
  end.

(** The items a run handed out, in order. *)
Definition taken (out : list (option A)) : list A := omap id out.

(** The last [n] elements of a list. *)
Definition lastn (n : nat) (l : list A) : list A := drop (length l - n) l.

End Queue.

Arguments Queue A : clear implicits.
Arguments op A : clear implicits.

(** ** Python values and numpy arrays *)

(** A numpy array: its shape and its samples in row-major order. *)
Record ndarray : Type := mkArray { shape : list Z; data : list Z }.

(** The Python objects that travel through the frame queue. *)
#[local] Set Warnings "-register-all".
Inductive pyobj : Type :=
| PyNone
| PyInt (n : Z)
| PyArray (a : ndarray)
| PyTuple (items : list pyobj).

(** [a >> k], sample by sample. *)
Definition rshift (a : ndarray) (k : Z) : ndarray :=
  mkArray (shape a) (map (fun v => Z.shiftr v k) (data a)).

(** [a.astype(np.uint8)]: every sample is cut to its low eight bits. *)
Definition astype_uint8 (a : ndarray) : ndarray :=
  mkArray (shape a) (map (fun v => v mod 256) (data a)).

(** [a.reshape(dims)]: [ValueError] when the sizes differ. *)
Definition reshape (a : ndarray) (dims : list Z) : outcome ndarray :=
  if foldr Z.mul 1 dims =? Z.of_nat (length (data a))
  then Return (mkArray dims (data a))
  else Raise ValueError.

(** [l[i]] on a Python list: negative indices count from the end. *)
Definition py_getitem {X : Type} (l : list X) (i : Z) : outcome X :=
  let n := Z.of_nat (length l) in
  let j := if i <? 0 then i + n else i in
  if (0 <=? j) && (j <? n) then
    match l !! Z.to_nat j with
    | Some x => Return x
    | None => Raise IndexError
    end
  else Raise IndexError.

(** A tuple of exactly two objects: what [a, b = x] can unpack. *)
Definition is_pair (o : pyobj) : bool :=
  match o with
  | PyTuple [_; _] => true
  | _ => false
  end.

(** A pair of an image and a sequence number, as the loop enqueues it. *)
Definition is_frame_pair (o : pyobj) : bool :=
  match o with
  | PyTuple [PyArray _; PyInt _] => true
  | _ => false
  end.

(** ** The vendor SDK, as far as the program uses it *)

Inductive SENSOR_TYPE : Type := MONOCHROME | BAYER | MONOCHROME_POLARIZED.

Definition SENSOR_TYPE_eqb (a b : SENSOR_TYPE) : bool :=
  match a, b with
  | MONOCHROME, MONOCHROME | BAYER, BAYER
  | MONOCHROME_POLARIZED, MONOCHROME_POLARIZED => true
  | _, _ => false
  end.

(** The properties of a [TLCamera] that the program reads. *)
Record TLCamera : Type := mkCamera {
  camera_sensor_type : SENSOR_TYPE;
  bit_depth : Z;
  image_width_pixels : Z;
  image_height_pixels : Z
}.

(** A frame returned by [get_pending_frame_or_null]. *)
Record Frame : Type := mkFrame { image_buffer : ndarray }.

(** A mono-to-colour processor with its [transform_to_24] method, which
    takes the raw buffer, the width and the height. *)
Record MonoToColorProcessor : Type := mkProcessor {
  transform_to_24 : ndarray -> Z -> Z -> sdk_result ndarray
}.

(** The SDK calls that the oracle of an environment can make fail. A read
    of a camera property counts with the call that consumes it. *)
Inductive call : Type :=
| CallSdkInit               (* TLCameraSDK() *)
| CallDiscover              (* discover_available_cameras() *)
| CallOpenCamera            (* open_camera(serial) *)
| CallColorSdkInit          (* MonoToColorProcessorSDK() *)
| CallCreateProcessor       (* create_mono_to_color_processor(...) *)
| CallSetPollTimeout        (* image_poll_timeout_ms = 0 *)
| CallThreadStart           (* Thread.start() *)
| CallSetFramesPerTrigger   (* frames_per_trigger_zero_for_unlimited = 0 *)
| CallArm                   (* arm(2) *)
| CallTrigger               (* issue_software_trigger() *)
| CallName.                 (* camera.name *)

(** The calls that went through, in the order they were made. *)
Inductive event : Type :=
| EvSdkInit
| EvDiscover
| EvOpenCamera (serial : nat)
| EvColorSdkInit
| EvCreateProcessor
| EvSetPollTimeout (ms : Z)
| EvThreadStart
| EvSetFramesPerTrigger (n : Z)
| EvArm (n : Z)
| EvTrigger
| EvName
| EvThreadStop
| EvThreadJoin
| EvDisarm
| EvCameraDispose
| EvSdkDispose
| EvProcessorDispose
| EvColorSdkDispose.

Global Instance event_eq_dec : EqDecision event.
Proof. solve_decision. Defined.

(** How often a call occurs in a log. *)
Definition count_ev (e : event) (log : list event) : nat :=
  length (filter (fun x => x = e) log).

(** What the outside world supplies to one controller: which calls fail,
    the serial numbers found by discovery, the camera behind each of them
    and the processor the colour SDK hands out. The release calls
    ([disarm], [dispose], reading [is_armed]) are taken to return. *)
Record Env : Type := mkEnv {
  fails : call -> option exn;
  camera_list : list nat;
  camera_of : nat -> TLCamera;
  processor : MonoToColorProcessor
}.

(** What one pass of the acquisition loop gets from
    [get_pending_frame_or_null]. *)
Inductive poll : Type :=
| PollNone
| PollFrame (f : Frame)
| PollRaise (e : exn).

(** ** _ImageAcquisitionThread *)

Module AcquisitionThread.

(** The attributes of the thread object. [_mono_to_color_sdk] records only
    whether the attribute holds an SDK object. [_started] is
    [threading.Thread]'s own flag. [produced] and [log] are ghost fields:
    the items handed to [put_nowait] and the SDK calls made by the thread,
    oldest first. The stop event belongs to the environment: the loop runs
    one pass per element of the poll list it is given and sees the event
    set when the list ends. *)
Record t : Type := mk {
  _camera : TLCamera;
  _is_color : bool;
  _mono_to_color_sdk : bool;
  _mono_to_color_processor : option MonoToColorProcessor;
  _bit_depth : Z;
  _image_queue : Queue pyobj;
  _frame_cnt : Z;
  _started : bool;
  produced : list pyobj;
  log : list event
}.

Definition set_queue (th : t) (q : Queue pyobj) : t :=
  mk (_camera th) (_is_color th) (_mono_to_color_sdk th)
     (_mono_to_color_processor th) (_bit_depth th) q (_frame_cnt th)
     (_started th) (produced th) (log th).

Definition set_frame_cnt (th : t) (n : Z) : t :=
  mk (_camera th) (_is_color th) (_mono_to_color_sdk th)
     (_mono_to_color_processor th) (_bit_depth th) (_image_queue th) n
     (_started th) (produced th) (log th).

Definition set_started (th : t) (b : bool) : t :=
  mk (_camera th) (_is_color th) (_mono_to_color_sdk th)
     (_mono_to_color_processor th) (_bit_depth th) (_image_queue th)
     (_frame_cnt th) b (produced th) (log th).

Definition add_produced (th : t) (item : pyobj) : t :=
  mk (_camera th) (_is_color th) (_mono_to_color_sdk th)
     (_mono_to_color_processor th) (_bit_depth th) (_image_queue th)
     (_frame_cnt th) (_started th) (produced th ++ [item]) (log th).

Definition add_log (th : t) (e : event) : t :=
  mk (_camera th) (_is_color th) (_mono_to_color_sdk th)
     (_mono_to_color_processor th) (_bit_depth th) (_image_queue th)
     (_frame_cnt th) (_started th) (produced th) (log th ++ [e]).

(** An SDK call inside the constructor: it raises when the oracle says so. *)
Definition attempt (env : Env) (c : call) : outcome unit :=
  match fails env c with
  | Some e => Raise e
  | None => Return tt
  end.

(** [__init__(camera)]. [_frame_cnt] is not set before [run]; it is 0
    here. *)
Definition __init__ (env : Env) (camera : TLCamera) : outcome t :=
  if SENSOR_TYPE_eqb (camera_sensor_type camera) BAYER then
    _ <- attempt env CallColorSdkInit ;;
    _ <- attempt env CallCreateProcessor ;;
    _ <- attempt env CallSetPollTimeout ;;
    Return (mk camera true true (Some (processor env)) (bit_depth camera)
               (CircularQueue 2) 0 false []
               [EvColorSdkInit; EvCreateProcessor; EvSetPollTimeout 0])
  else
    _ <- attempt env CallSetPollTimeout ;;
    Return (mk camera false false None (bit_depth camera)
               (CircularQueue 2) 0 false [] [EvSetPollTimeout 0]).

(** [get_output_queue]. *)
Definition get_output_queue (th : t) : Queue pyobj := _image_queue th.

(** [_process_frame(frame)]. *)
Definition _process_frame (th : t) (frame : Frame) : outcome ndarray :=
  if _is_color th then
    match _mono_to_color_processor th with
    | Some p =>
        color_image_data <-
          of_sdk (transform_to_24 p (image_buffer frame)
                    (image_width_pixels (_camera th))
                    (image_height_pixels (_camera th))) ;;
        reshape color_image_data
          [image_height_pixels (_camera th); image_width_pixels (_camera th); 3]
    | None => Raise AttributeError
    end
  else
    let scaled_image := rshift (image_buffer frame) (_bit_depth th - 8) in
    Return (astype_uint8 scaled_image).

(** The body of the [try] in one pass of the loop. The counter and the
    queue change only after everything that can raise has returned. *)
Definition iteration (th : t) (p : poll) : outcome t :=
  match p with
  | PollRaise e => Raise e
  | PollNone => Return th
  | PollFrame frame =>
      image_np <- _process_frame th frame ;;
      let item := PyTuple [PyArray image_np; PyInt (_frame_cnt th)] in
      q <- put_nowait (_image_queue th) item ;;
      Return (set_frame_cnt (add_produced (set_queue th q) item) (_frame_cnt th + 1))
  end.

(** One pass with its [except] clauses; the flag says whether the loop
    goes on. *)
Definition loop_step (th : t) (p : poll) : outcome (t * bool) :=
  match iteration th p with
  | Return th' => Return (th', true)
  | Raise QueueFull => Return (th, true)     (* except queue.Full: pass *)
  | Raise _ => Return (th, false)            (* except Exception: break *)
  | Block => Block
  end.

(** The [while] loop. *)
Fixpoint loop (th : t) (polls : list poll) : outcome t :=
  match polls with
  | [] => Return th
  | p :: rest =>
      r <- loop_step th p ;;
      if r.2 then loop r.1 rest else Return r.1
  end.

(** What follows the loop: the colour resources are disposed of. *)
Definition release (th : t) : t :=
  if _is_color th then
    let th1 := match _mono_to_color_processor th with
               | Some _ => add_log th EvProcessorDispose
               | None => th
               end in
    if _mono_to_color_sdk th1 then add_log th1 EvColorSdkDispose else th1
  else th.

(** [run()]. *)
Definition run (th : t) (polls : list poll) : outcome t :=
  th' <- loop (set_frame_cnt th 0) polls ;;
  Return (release th').

(** The attributes that a pass of the loop never assigns. *)
Definition same_setup (th th' : t) : Prop :=
  _camera th' = _camera th /\ _is_color th' = _is_color th /\
  _mono_to_color_sdk th' = _mono_to_color_sdk th /\
  _mono_to_color_processor th' = _mono_to_color_processor th /\
  _bit_depth th' = _bit_depth th /\ _started th' = _started th /\
  log th' = log th.

(** The sequence number of a queued item. *)
Definition seq_of (item : pyobj) : option Z :=
  match item with
  | PyTuple [_; PyInt n] => Some n
  | _ => None
  end.

End AcquisitionThread.

(** ** ThorlabsCameraController *)

Module Controller.

(** The attributes of the controller. [_sdk] and [_camera] are [None] or
    the SDK object ([true]) and the opened camera. [_acquisition_thread]
    holds the thread object itself; [_image_queue] is set on the line after
    it, to the thread's own queue object, so it is read through the thread
    and the two names share one queue. *)
Record t : Type := mk {
  _sdk : bool;
  _camera : option TLCamera;
  _acquisition_thread : option AcquisitionThread.t
}.

Definition _image_queue (self : t) : option (Queue pyobj) :=
  AcquisitionThread.get_output_queue <$> _acquisition_thread self.

(** The controller together with the part of the world it acts on:
    [is_armed] is the camera's property, [calls] the SDK and thread calls
    the controller made that went through, oldest first. *)
Record state : Type := mkState {
  self : t;
  is_armed : bool;
  calls : list event
}.

(** Before [__init__] runs. *)
Definition fresh : state := mkState (mk false None None) false [].

(** Code of the controller: it reads and changes the state, and returns or
    raises. The state survives a raise. *)
Definition M (A : Type) : Type := state -> outcome A * state.

Definition ret {A : Type} (a : A) : M A := fun s => (Return a, s).

Definition raise {A : Type} (e : exn) : M A := fun s => (Raise e, s).

Definition mbind {A B : Type} (m : M A) (k : A -> M B) : M B :=
  fun s =>
    match m s with
    | (Return a, s') => k a s'
    | (Raise e, s') => (Raise e, s')
    | (Block, s') => (Block, s')
    end.

Notation "x <~ m ;; k" := (mbind m (fun x => k))
  (at level 100, m at next level, right associativity).

(** [try: body except Exception as e: handler(e)]. *)
Definition try_except {A : Type} (body : M A) (handler : exn -> M A) : M A :=
  fun s =>
    match body s with
    | (Raise e, s') => handler e s'
    | r => r
    end.

(** Lifts code that does not touch the state. *)
Definition lift {A : Type} (o : outcome A) : M A := fun s => (o, s).

Definition record (e : event) : M unit :=
  fun s => (Return tt, mkState (self s) (is_armed s) (calls s ++ [e])).

Definition set_self (c : t) : M unit :=
  fun s => (Return tt, mkState c (is_armed s) (calls s)).

Definition get_self : M t := fun s => (Return (self s), s).

Definition set_armed (b : bool) : M unit :=
  fun s => (Return tt, mkState (self s) b (calls s)).

Definition get_armed : M bool := fun s => (Return (is_armed s), s).

(** An SDK call: it raises when the oracle says so, and is recorded
    otherwise. *)
Definition sdk (env : Env) (c : call) (e : event) : M unit :=
  match fails env c with
  | Some x => raise x
  | None => record e
  end.

(** [Thread.join()]: [RuntimeError] for a thread that was never started. *)
Definition join (th : AcquisitionThread.t) : M unit :=
  if AcquisitionThread._started th then record EvThreadJoin
  else raise RuntimeError.

(** [close()]. *)
Definition close : M unit :=
  c <~ get_self ;;
  _ <~ match _acquisition_thread c with
       | Some th => _ <~ record EvThreadStop ;; join th
       | None => ret tt
       end ;;
  _ <~ match _camera c with
       | Some _ =>
           armed <~ get_armed ;;
           _ <~ (if armed then _ <~ record EvDisarm ;; set_armed false
                 else ret tt) ;;
           record EvCameraDispose
       | None => ret tt
       end ;;
  if _sdk c then record EvSdkDispose else ret tt.

(** The body of the [try] in [__init__]. *)
Definition init_body (env : Env) (camera_index : Z) : M unit :=
  _ <~ sdk env CallSdkInit EvSdkInit ;;
  _ <~ set_self (mk true None None) ;;
  _ <~ sdk env CallDiscover EvDiscover ;;
  let camera_list := camera_list env in
  if bool_decide (camera_list = []) then raise ConnectionError
  else if camera_index >=? Z.of_nat (length camera_list) then raise IndexError
  else
    serial <~ lift (py_getitem camera_list camera_index) ;;
    _ <~ sdk env CallOpenCamera (EvOpenCamera serial) ;;
    let camera := camera_of env serial in
    _ <~ set_self (mk true (Some camera) None) ;;
    th <~ lift (AcquisitionThread.__init__ env camera) ;;
    _ <~ set_self (mk true (Some camera) (Some th)) ;;
    _ <~ sdk env CallThreadStart EvThreadStart ;;
    _ <~ set_self (mk true (Some camera)
                      (Some (AcquisitionThread.set_started th true))) ;;
    _ <~ sdk env CallSetFramesPerTrigger (EvSetFramesPerTrigger 0) ;;
    _ <~ sdk env CallArm (EvArm 2) ;;
    _ <~ set_armed true ;;
    _ <~ sdk env CallTrigger EvTrigger ;;
    sdk env CallName EvName.

(** [__init__(camera_index)]. *)
Definition __init__ (env : Env) (camera_index : Z) : M unit :=
  _ <~ set_self (mk false None None) ;;
  try_except (init_body env camera_index)
             (fun e => _ <~ close ;; raise e).

(** Writes the queue object back: the thread's attribute and the
    controller's are one object. *)
Definition store_queue (q : Queue pyobj) : M unit :=
  c <~ get_self ;;
  set_self (mk (_sdk c) (_camera c)
               ((fun th => AcquisitionThread.set_queue th q) <$> _acquisition_thread c)).

(** [get_nowait()]. *)
Definition get_nowait : M pyobj :=
  c <~ get_self ;;
  match _image_queue c with
  | None => raise AttributeError        (* None has no get_nowait *)
  | Some image_queue =>
      match get_nowait image_queue with
      | Return (item, q) => _ <~ store_queue q ;; ret item
      | Raise QueueEmpty => ret (PyTuple [PyNone; PyNone])
      | Raise e => raise e
      | Block => fun s => (Block, s)
      end
  end.

(** [__enter__] and [__exit__]. *)
Definition __enter__ : M unit := ret tt.

Definition __exit__ : M unit := close.

(** What the two threads do to a streaming controller, in the order the
    queue's mutex lets them: a pass of the acquisition loop or a
    [get_nowait] of the consumer. *)
Inductive action : Type :=
| Produce (p : poll)
| Consume.

(** Runs an interleaving. [running] says whether the loop is still inside
    its [while]; passes offered after it left are not run. The results of
    the [get_nowait] calls are collected in order. *)
Fixpoint interleave (running : bool) (acts : list action) : M (list pyobj) :=
  match acts with
  | [] => ret []
  | Consume :: rest =>
      item <~ get_nowait ;;
      items <~ interleave running rest ;;
      ret (item :: items)
  | Produce p :: rest =>
      if running then
        c <~ get_self ;;
        match _acquisition_thread c with
        | None => raise AttributeError
        | Some th =>
            r <~ lift (AcquisitionThread.loop_step th p) ;;
            _ <~ set_self (mk (_sdk c) (_camera c) (Some r.1)) ;;
            interleave r.2 rest
        end
      else interleave false rest
  end.

(** The number of [get_nowait] calls in an interleaving. *)
Fixpoint consumes (acts : list action) : nat :=
  match acts with
  | [] => 0
  | Consume :: rest => S (consumes rest)
  | Produce _ :: rest => consumes rest
  end.

(** A controller whose queue exists and holds only pairs of an image and a
    sequence number. *)
Definition streaming (s : state) : Prop :=
  exists th, _acquisition_thread (self s) = Some th /\
             Forall (fun o => is_frame_pair o = true)
                    (queue (AcquisitionThread._image_queue th)).

End Controller.

(** ** Shapes of results, kinds of calls, and sample environments *)

(** The calls that give a resource back. *)
Definition is_release (e : event) : bool :=
  match e with
  | EvThreadStop | EvThreadJoin | EvDisarm | EvCameraDispose | EvSdkDispose
  | EvProcessorDispose | EvColorSdkDispose => true
  | _ => false
  end.

(** The state a controller call ends in, and what it returned. *)
Definition state_after {A : Type} (m : Controller.M A) (s : Controller.state) :
  Controller.state := (m s).2.

Definition result_of {A : Type} (m : Controller.M A) (s : Controller.state) :
  outcome A := (m s).1.

(** Two cameras with serial numbers 7 and 9, both 12-bit monochrome with
    2 x 1 pixels; every call succeeds. *)
Definition mono_env : Env :=
  mkEnv (fun _ => None) [7%nat; 9%nat]
        (fun _ => mkCamera MONOCHROME 12 2 1)
        (mkProcessor (fun _ _ _ => inl SdkError)).

(** One 10-bit Bayer camera with a single pixel; the processor turns any
    buffer into the three samples 1, 2, 3. *)
Definition bayer_env : Env :=
  mkEnv (fun _ => None) [7%nat]
        (fun _ => mkCamera BAYER 10 1 1)
        (mkProcessor (fun _ _ _ => inr (mkArray [3] [1; 2; 3]))).

(** A raw 12-bit frame of 2 x 1 pixels. *)
Definition raw_frame (a b : Z) : Frame := mkFrame (mkArray [1; 2] [a; b]).

(** ** Further vocabulary: schedules, scoped use *)

(** The number of takes in a sequence of queue calls. *)
Fixpoint takes_of {A : Type} (ops : list (op A)) : nat :=
  match ops with
  | [] => 0
  | Put _ :: r => takes_of r
  | Take :: r => S (takes_of r)
  end.

(** A pass that changes nothing and lets the loop go on: no frame is
    pending, or the poll raised [queue.Full]. *)
Definition is_idle (p : poll) : bool :=
  match p with
  | PollNone | PollRaise QueueFull => true
  | _ => false
  end.

(** The frames polled before the first poll that raises something other
    than [queue.Full]. *)
Fixpoint polled_frames (polls : list poll) : list Frame :=
  match polls with
  | [] => []
  | PollNone :: r => polled_frames r
  | PollFrame f :: r => f :: polled_frames r
  | PollRaise QueueFull :: r => polled_frames r
  | PollRaise _ :: _ => []
  end.

(** What the monochrome path makes of one raw sample at bit depth [b]. *)
Definition mono_sample (b v : Z) : Z := Z.shiftr v (b - 8) mod 256.

(** [with ThorlabsCameraController(camera_index) as controller: body], as
    in [test_camera.py]: the constructor, [__enter__], the body, then
    [__exit__] whether the body returned or raised; [__exit__] returns
    [None], so an exception of the body is raised again after it. When the
    constructor raises, neither the body nor [__exit__] runs. *)
Definition with_controller {A : Type} (env : Env) (camera_index : Z)
    (body : Controller.M A) : Controller.M A :=
  Controller.mbind (Controller.__init__ env camera_index) (fun _ =>
  Controller.mbind Controller.__enter__ (fun _ =>
  fun s =>
    match body s with
    | (Return a, s') =>
        Controller.mbind Controller.__exit__ (fun _ => Controller.ret a) s'
    | (Raise e, s') =>
        Controller.mbind Controller.__exit__ (fun _ => Controller.raise e) s'
    | (Block, s') => (Block, s')
    end)).

(** The sequence numbers of the frames among the results of [get_nowait]
    calls; [(None, None)] carries none. *)
Definition delivered (items : list pyobj) : list Z :=
  omap AcquisitionThread.seq_of items.

(** The queue of a streaming thread as the consumer finds it: capacity 2
    and at most two items, all pairs of image and sequence number, with
    sequence numbers that increase along the queue and lie between [lo]
    and the thread's counter. *)
Definition ordered_queue (lo : Z) (th : AcquisitionThread.t) : Prop :=
  let q := AcquisitionThread._image_queue th in
  maxsize q = 2 /\ _qsize q <= 2 /\
  Forall (fun o => is_frame_pair o = true) (queue q) /\
  StronglySorted Z.lt (delivered (queue q)) /\
  Forall (fun n => lo <= n < AcquisitionThread._frame_cnt th) (delivered (queue q)) /\
  lo <= AcquisitionThread._frame_cnt th.

(** * Properties *)

(** ** The queue *)

Section QueueFacts.

Context {A : Type}.
Implicit Types (q : Queue A) (l : list A) (x : A).

Lemma qsize_length q : _qsize q = Z.of_nat (length (queue q)).
Proof. reflexivity. Qed.

(** [put] always returns: a full queue of positive capacity is not empty,
    so the [popleft] inside cannot fail. *)
Lemma put_eq q x b :
  put q x b =
  Return (mkQueue (maxsize q)
            ((if (0 <? maxsize q) && (maxsize q <=? _qsize q)
              then tail (queue q) else queue q) ++ [x])).
Proof.
  unfold put, _get, _put, _qsize.
  destruct (Z.ltb_spec 0 (maxsize q)) as [Hpos|Hnp]; simpl; [|done].
  destruct (Z.leb_spec (maxsize q) (Z.of_nat (length (queue q)))) as [Hfull|Hroom];
    simpl; [|done].
  destruct (queue q) as [|y rest] eqn:E; simpl in *; [lia|done].
Qed.

Lemma get_nowait_nil q : queue q = [] -> get_nowait q = Raise QueueEmpty.
Proof. intros E. unfold get_nowait, get, _qsize. rewrite E. reflexivity. Qed.

Lemma get_nowait_cons q x rest :
  queue q = x :: rest -> get_nowait q = Return (x, mkQueue (maxsize q) rest).
Proof.
  intros E. unfold get_nowait, get, _get, _qsize. rewrite E. reflexivity.
Qed.

Lemma lastn_length n l : length (lastn n l) = (length l `min` n)%nat.
Proof. unfold lastn. rewrite length_drop. lia. Qed.

Lemma lastn_all n l : (length l <= n)%nat -> lastn n l = l.
Proof.
  intros H. unfold lastn. replace (length l - n)%nat with 0%nat by lia. done.
Qed.

Lemma lastn_snoc_full n l x :
  (0 < n)%nat -> length l = n -> lastn n (l ++ [x]) = tail l ++ [x].
Proof.
  intros Hn Hl. unfold lastn. rewrite length_app. simpl.
  replace (length l + 1 - n)%nat with 1%nat by lia.
  destruct l as [|y l]; simpl in *; [lia|]. by rewrite drop_0.
Qed.

Lemma lastn_lastn_app n l1 l2 : lastn n (lastn n l1 ++ l2) = lastn n (l1 ++ l2).
Proof.
  destruct (decide (length l1 <= n)%nat) as [Hle|Hgt].
  - by rewrite (lastn_all n l1).
  - unfold lastn. rewrite !length_app, length_drop.
    replace (length l1 - (length l1 - n) + length l2 - n)%nat
      with (length l2) by lia.
    replace (length l1 + length l2 - n)%nat
      with ((length l1 - n) + length l2)%nat by lia.
    rewrite <- drop_drop. f_equal.
    rewrite drop_app_le by lia. done.
Qed.

(** One [put] on a queue within its capacity keeps the last [maxsize]
    items. *)
Lemma put_lastn q x b :
  0 < maxsize q -> _qsize q <= maxsize q ->
  put q x b =
  Return (mkQueue (maxsize q) (lastn (Z.to_nat (maxsize q)) (queue q ++ [x]))).
Proof.
  intros Hpos Hsz. rewrite put_eq. do 2 f_equal.
  unfold _qsize in *.
  destruct (Z.ltb_spec 0 (maxsize q)); [|lia]. simpl.
  destruct (Z.leb_spec (maxsize q) (Z.of_nat (length (queue q)))).
  - rewrite lastn_snoc_full; [done|lia|lia].
  - rewrite lastn_all; [done|]. rewrite length_app. simpl. lia.
Qed.

Lemma put_all_lastn l : forall q,
  0 < maxsize q -> _qsize q <= maxsize q ->
  put_all q l =
  Return (mkQueue (maxsize q) (lastn (Z.to_nat (maxsize q)) (queue q ++ l))).
Proof.
  induction l as [|x l IH]; intros q Hpos Hsz; simpl.
  - rewrite app_nil_r, lastn_all; [by destruct q|]. unfold _qsize in Hsz. lia.
  - unfold put_nowait. rewrite put_lastn by done. simpl.
    rewrite IH; simpl; [|done|].
    + rewrite lastn_lastn_app, <- app_assoc. done.
    + unfold _qsize. simpl. rewrite lastn_length. lia.
Qed.

(** Index form of [sublist]: two positions of the shorter list are found in
    the same order in the longer one. *)
Lemma sublist_lookup_ordered l1 l2 (k m : nat) (a b : A) :
  sublist l1 l2 -> (k < m)%nat -> l1 !! k = Some a -> l1 !! m = Some b ->
  exists i j, (i < j)%nat /\ l2 !! i = Some a /\ l2 !! j = Some b.
Proof.
  intros Hsub. revert k m. induction Hsub as [|y l1 l2 Hsub IH|y l1 l2 Hsub IH];
    intros k m Hkm Hk Hm.
  - done.
  - destruct m as [|m]; [lia|]. simpl in Hm.
    destruct k as [|k]; simpl in Hk.
    + inversion Hk; subst y.
      assert (b ∈ l2) as Hb.
      { eapply elem_of_sublist; [|exact Hsub]. eapply list_elem_of_lookup_2, Hm. }
      apply list_elem_of_lookup_1 in Hb as [j Hj].
      exists 0%nat, (S j). split; [lia|done].
    + destruct (IH k m) as (i & j & Hij & Hi & Hj); [lia|done|done|].
      exists (S i), (S j). split; [lia|done].
  - destruct (IH k m) as (i & j & Hij & Hi & Hj); [done..|].
    exists (S i), (S j). split; [lia|done].
Qed.

(** What a run hands out, followed by what it leaves queued, is a
    subsequence of what was queued at the start followed by what was put. *)
Lemma run_ops_sublist ops : forall q,
  exists qf out,
    run_ops q ops = Return (qf, out) /\
    sublist (taken out ++ queue qf) (queue q ++ puts_of ops).
Proof.
  induction ops as [|[x|] ops IH]; intros q; simpl.
  - exists q, []. split; [done|]. by rewrite app_nil_r.
  - unfold put_nowait. rewrite put_eq. simpl.
    edestruct IH as (qf & out & Hrun & Hsub). exists qf, out.
    split; [exact Hrun|]. etrans; [exact Hsub|]. simpl.
    rewrite <- app_assoc. simpl. apply sublist_app; [|done].
    destruct (_ && _); [|done]. destruct (queue q); [done|]. by apply sublist_cons.
  - destruct (queue q) as [|y rest] eqn:E.
    + rewrite (get_nowait_nil q E).
      destruct (IH q) as (qf & out & Hrun & Hsub). rewrite Hrun. simpl.
      exists qf, (None :: out). split; [done|]. by rewrite E in Hsub.
    + rewrite (get_nowait_cons q y rest E).
      destruct (IH (mkQueue (maxsize q) rest)) as (qf & out & Hrun & Hsub).
      rewrite Hrun. simpl. exists qf, (Some y :: out). split; [done|].
      simpl. by apply sublist_skip.
Qed.

End QueueFacts.

(** C1. For a capacity [C > 0] and [N > C] successive puts into a
    [CircularQueue] of that capacity, every put returns, the queue ends
    with exactly the last [C] items put, in the order they were put, and
    after every prefix of the puts the size of the queue is at most [C]. *)
Theorem C1_put_keeps_last_items (A : Type) (C : Z) (l : list A) :
  0 < C -> C < Z.of_nat (length l) ->
  (exists q, put_all (CircularQueue C) l = Return q /\
             queue q = drop (length l - Z.to_nat C) l /\
             _qsize q = C) /\
  (forall k, exists qk, put_all (CircularQueue C) (take k l) = Return qk /\
                        _qsize qk <= C).
Proof.
  intros Hpos Hlen. split.
  - eexists. split; [apply put_all_lastn; simpl; [done|unfold _qsize; simpl; lia]|].
    simpl. split; [done|].
    unfold _qsize. simpl. rewrite lastn_length. lia.
  - intros k. eexists. split; [apply put_all_lastn; simpl; [done|unfold _qsize; simpl; lia]|].
    unfold _qsize. simpl. rewrite lastn_length. lia.
Qed.

Lemma C1_put_keeps_last_items_witness :
  (exists q, put_all (CircularQueue 2) [10; 20; 30] = Return q /\
             queue q = [20; 30] /\ _qsize q = 2) /\
  (forall k, exists qk, put_all (CircularQueue 2) (take k [10; 20; 30]) = Return qk /\
                        _qsize qk <= 2).
Proof.
  apply (C1_put_keeps_last_items Z 2 [10; 20; 30]); [lia | simpl; lia].
Defined.

(** C2. In any interleaving of puts and takes on a [CircularQueue], every
    call returns, the items handed out followed by the items still queued
    form a subsequence of the items put, and when the items put are
    pairwise distinct, an item put before another is handed out before it
    whenever both are handed out. On a queue of capacity 2, putting 1, 2
    and 3 leaves 2 and 3 in the queue, and three takes then give 2, 3 and
    the empty result. *)
Theorem C2_fifo_among_survivors :
  (forall (A : Type) (C : Z) (ops : list (op A)),
     exists qf out,
       run_ops (CircularQueue C) ops = Return (qf, out) /\
       sublist (taken out ++ queue qf) (puts_of ops) /\
       (NoDup (puts_of ops) ->
        forall (i j k m : nat) (a b : A),
          puts_of ops !! i = Some a -> puts_of ops !! j = Some b -> (i < j)%nat ->
          taken out !! k = Some a -> taken out !! m = Some b -> (k < m)%nat)) /\
  run_ops (CircularQueue 2) [Put 1; Put 2; Put 3] = Return (mkQueue 2 [2; 3], []) /\
  run_ops (mkQueue 2 [2; 3]) [Take; Take; Take] =
    Return (mkQueue 2 [], [Some 2; Some 3; None]).
Proof.
  split; [|split; reflexivity].
  intros A C ops.
  destruct (run_ops_sublist ops (CircularQueue C)) as (qf & out & Hrun & Hsub).
  simpl in Hsub. exists qf, out. split; [done|]. split; [done|].
  intros Hnd i j k m a b Hi Hj Hij Hk Hm.
  assert (sublist (taken out) (puts_of ops)) as Hsub'.
  { etrans; [|exact Hsub]. by apply sublist_inserts_r. }
  destruct (lt_eq_lt_dec k m) as [[Hlt|Heq]|Hgt]; [done| |].
  - subst m. rewrite Hk in Hm. inversion Hm; subst b.
    pose proof (NoDup_lookup _ _ _ _ Hnd Hi Hj). lia.
  - destruct (sublist_lookup_ordered _ _ m k b a Hsub' Hgt Hm Hk)
      as (j' & i' & Hlt & Hj' & Hi').
    pose proof (NoDup_lookup _ _ _ _ Hnd Hi Hi').
    pose proof (NoDup_lookup _ _ _ _ Hnd Hj Hj'). lia.
Qed.

Lemma C2_fifo_among_survivors_witness :
  exists qf out,
    run_ops (CircularQueue 2) [Put 1; Put 2; Take; Put 3; Take] = Return (qf, out) /\
    taken out = [1; 2] /\ (0 < 1)%nat.
Proof.
  destruct (proj1 C2_fifo_among_survivors Z 2 [Put 1; Put 2; Take; Put 3; Take])
    as (qf & out & Hrun & _ & Hord).
  exists qf, out. split; [exact Hrun|].
  vm_compute in Hrun. inversion Hrun; subst qf out. split; [reflexivity|].
  apply (Hord ltac:(compute_done) 0%nat 1%nat 0%nat 1%nat 1 2);
    first [reflexivity | lia].
Defined.

(** ** The acquisition thread *)

Section ThreadFacts.

Import AcquisitionThread.

Implicit Types (th : t) (p : poll) (polls : list poll).

Lemma same_setup_refl th : same_setup th th.
Proof. repeat split. Qed.

Lemma same_setup_trans th1 th2 th3 :
  same_setup th1 th2 -> same_setup th2 th3 -> same_setup th1 th3.
Proof. unfold same_setup. intuition congruence. Qed.

(** A pass either produces one frame, tagged with the current counter, or
    changes nothing; it never escapes with an exception and never waits. *)
Lemma loop_step_cases th p :
  (exists image_np q,
      let item := PyTuple [PyArray image_np; PyInt (_frame_cnt th)] in
      put_nowait (_image_queue th) item = Return q /\
      loop_step th p =
        Return (set_frame_cnt (add_produced (set_queue th q) item) (_frame_cnt th + 1),
                true)) \/
  (exists b, loop_step th p = Return (th, b)).
Proof.
  unfold loop_step, iteration.
  destruct p as [|frame|e].
  - right. by exists true.
  - destruct (_process_frame th frame) as [image_np|e|] eqn:E; simpl.
    + left. exists image_np. unfold put_nowait. rewrite put_eq. simpl.
      eexists. split; reflexivity.
    + right. destruct e; by eexists.
    + exfalso. unfold _process_frame in E.
      destruct (_is_color th); [|done].
      destruct (_mono_to_color_processor th) as [pr|]; [|done].
      destruct (transform_to_24 pr _ _ _) as [?|c]; simpl in E; [done|].
      unfold reshape in E. by destruct (_ =? _).
  - right. destruct e; by eexists.
Qed.

Lemma loop_step_same_setup th p r :
  loop_step th p = Return r -> same_setup th r.1.
Proof.
  intros H. destruct (loop_step_cases th p) as [(im & q & _ & E)|[b E]];
    rewrite E in H; inversion H; subst r; by repeat split.
Qed.

(** The loop always leaves its [while]. The frames it produced carry the
    counter values from the one it started with, one after the other, and
    the counter ends just past the last of them. *)
Lemma loop_produces polls : forall th,
  exists th' items,
    loop th polls = Return th' /\
    same_setup th th' /\
    produced th' = produced th ++ items /\
    _frame_cnt th' = _frame_cnt th + Z.of_nat (length items) /\
    forall (i : nat) item, items !! i = Some item ->
      exists image_np,
        item = PyTuple [PyArray image_np; PyInt (_frame_cnt th + Z.of_nat i)].
Proof.
  induction polls as [|p polls IH]; intros th; simpl.
  - exists th, []. rewrite app_nil_r. simpl.
    split; [done|]. split; [apply same_setup_refl|]. split; [done|].
    split; [lia|done].
  - destruct (loop_step_cases th p) as [(im & q & _ & E)|[b E]]; rewrite E; simpl.
    + match goal with |- context [loop ?x polls] => destruct (IH x)
        as (th' & items & Hl & Hs & Hp & Hc & Hi) end.
      exists th', (PyTuple [PyArray im; PyInt (_frame_cnt th)] :: items).
      split; [done|]. split; [exact Hs|]. simpl in *.
      split; [by rewrite Hp, <- app_assoc|]. split; [lia|].
      intros [|i] item Hitem; simpl in Hitem.
      * inversion Hitem. exists im. do 4 f_equal. lia.
      * destruct (Hi i item Hitem) as [im' ->]. exists im'. do 4 f_equal. lia.
    + destruct b.
      * destruct (IH th) as (th' & items & Hl & Hs & Hp & Hc & Hi).
        exists th', items. done.
      * exists th, []. rewrite app_nil_r. simpl.
        split; [done|]. split; [apply same_setup_refl|]. split; [done|].
        split; [lia|done].
Qed.

(** When a pass breaks out of the loop, the loop ends in the state that
    pass started from, whatever would have been polled afterwards. *)
Lemma loop_break pre : forall th th_pre p post,
  loop th pre = Return th_pre ->
  loop_step th_pre p = Return (th_pre, false) ->
  loop th (pre ++ p :: post) = Return th_pre.
Proof.
  induction pre as [|a pre IH]; intros th th_pre p post Hpre Hstep; simpl in *.
  - inversion Hpre; subst th_pre. by rewrite Hstep.
  - destruct (loop_step th a) as [[th1 b]| |]; simpl in *; [|done..].
    destruct b; [by apply IH|done].
Qed.


Lemma init_shape env camera th :
  __init__ env camera = Return th ->
  _camera th = camera /\ produced th = [] /\
  _image_queue th = CircularQueue 2 /\ _bit_depth th = bit_depth camera /\
  _is_color th = SENSOR_TYPE_eqb (camera_sensor_type camera) BAYER /\
  _mono_to_color_sdk th = _is_color th /\
  (if _is_color th then is_Some (_mono_to_color_processor th)
   else _mono_to_color_processor th = None) /\
  log th = (if _is_color th then [EvColorSdkInit; EvCreateProcessor] else [])
           ++ [EvSetPollTimeout 0].
Proof.
  unfold __init__, attempt.
  destruct (SENSOR_TYPE_eqb _ _);
    repeat (destruct (fails env _); simpl; [done|]);
    intros H; inversion H; subst th; simpl; repeat split; eauto.
Qed.

(** A raw sample below [2^b] shifted right by [b - 8] fits eight bits. *)
Lemma shiftr_fits (b v : Z) :
  8 <= b -> 0 <= v < 2 ^ b -> 0 <= Z.shiftr v (b - 8) < 256.
Proof.
  intros Hb [Hv0 Hv]. rewrite Z.shiftr_div_pow2 by lia.
  assert (0 < 2 ^ (b - 8)) as Hp by (apply Z.pow_pos_nonneg; lia).
  split; [apply Z.div_pos; lia|].
  apply Z.div_lt_upper_bound; [done|].
  replace 256 with (2 ^ 8) by reflexivity.
  rewrite <- Z.pow_add_r by lia. by replace (b - 8 + 8) with b by lia.
Qed.

(** C6. On the monochrome path with bit depth [b >= 8], a buffer whose
    samples [v] satisfy [0 <= v < 2^b] is converted sample by sample to
    [v >> (b - 8)], nothing raises, the shape is kept, and every produced
    sample lies in [0, 256), so cutting to eight bits changes nothing. *)
Theorem C6_mono_shift th frame :
  _is_color th = false ->
  8 <= _bit_depth th ->
  Forall (fun v => 0 <= v < 2 ^ _bit_depth th) (data (image_buffer frame)) ->
  _process_frame th frame =
    Return (mkArray (shape (image_buffer frame))
              (map (fun v => Z.shiftr v (_bit_depth th - 8))
                   (data (image_buffer frame)))) /\
  astype_uint8 (rshift (image_buffer frame) (_bit_depth th - 8)) =
    rshift (image_buffer frame) (_bit_depth th - 8) /\
  Forall (fun s => 0 <= s < 256)
         (map (fun v => Z.shiftr v (_bit_depth th - 8)) (data (image_buffer frame))).
Proof.
  intros Hmono Hb Hrange.
  assert (Forall (fun s => 0 <= s < 256)
            (map (fun v => Z.shiftr v (_bit_depth th - 8))
                 (data (image_buffer frame)))) as Hfit.
  { apply Forall_fmap. eapply Forall_impl; [exact Hrange|].
    intros v Hv. simpl. by apply shiftr_fits. }
  assert (astype_uint8 (rshift (image_buffer frame) (_bit_depth th - 8)) =
          rshift (image_buffer frame) (_bit_depth th - 8)) as Hcut.
  { unfold astype_uint8, rshift. simpl. f_equal.
    induction Hfit as [|s l Hs _ IH]; simpl; [done|].
    rewrite IH. f_equal. by apply Z.mod_small. }
  split; [|done].
  unfold _process_frame. rewrite Hmono, Hcut. reflexivity.
Qed.

Lemma C6_mono_shift_witness :
  _process_frame
    (mk (mkCamera MONOCHROME 12 3 1) false false None 12 (CircularQueue 2) 0 false [] [])
    (mkFrame (mkArray [1; 3] [4095; 0; 2048])) =
  Return (mkArray [1; 3] [255; 0; 128]).
Proof.
  refine (proj1 (C6_mono_shift
    (mk (mkCamera MONOCHROME 12 3 1) false false None 12 (CircularQueue 2) 0 false [] [])
    (mkFrame (mkArray [1; 3] [4095; 0; 2048])) _ _ _)).
  - reflexivity.
  - simpl. lia.
  - simpl. repeat constructor; lia.
Defined.

(** C7. In any execution of [run], whatever is polled and whatever the
    queue held or dropped, the loop is left, and the frames it produced
    carry the sequence numbers 0, 1, 2, ... in the order they were
    produced: one number per produced frame, none repeated, none skipped;
    the counter ends at the number of frames produced. *)
Theorem C7_sequence_numbers th polls :
  exists th' items,
    run th polls = Return th' /\
    produced th' = produced th ++ items /\
    seq_of <$> items = (fun i => Some (Z.of_nat i)) <$> seq 0 (length items) /\
    _frame_cnt th' = Z.of_nat (length items).
Proof.
  unfold run.
  destruct (loop_produces polls (set_frame_cnt th 0))
    as (th1 & items & Hl & Hs & Hp & Hc & Hi).
  rewrite Hl. simpl in *.
  exists (release th1), items. split; [done|].
  assert (forall x, produced (release x) = produced x /\
                    _frame_cnt (release x) = _frame_cnt x) as Hrel.
  { intros x. unfold release.
    destruct (_is_color x); [|done].
    destruct (_mono_to_color_processor x); simpl;
      destruct (_mono_to_color_sdk x); done. }
  destruct (Hrel th1) as [-> ->]. split; [done|]. split; [|lia].
  apply list_eq. intros i. rewrite !list_lookup_fmap.
  destruct (items !! i) as [item|] eqn:E; simpl.
  - destruct (Hi i item E) as [im ->]. simpl.
    rewrite lookup_seq_lt by (eapply lookup_lt_Some, E). done.
  - rewrite lookup_seq_ge by (by apply lookup_ge_None). done.
Qed.

Lemma release_log th :
  log (release th) =
  log th ++ (if _is_color th
             then match _mono_to_color_processor th with
                  | Some _ => [EvProcessorDispose]
                  | None => []
                  end
                  ++ (if _mono_to_color_sdk th then [EvColorSdkDispose] else [])
             else []).
Proof.
  unfold release. destruct (_is_color th); [|by rewrite app_nil_r].
  destruct (_mono_to_color_processor th); simpl;
    destruct (_mono_to_color_sdk th); simpl;
    rewrite <- ?app_assoc, ?app_nil_r; done.
Qed.

Lemma release_queue th :
  _image_queue (release th) = _image_queue th /\ produced (release th) = produced th.
Proof.
  unfold release. destruct (_is_color th); [|done].
  destruct (_mono_to_color_processor th); simpl;
    destruct (_mono_to_color_sdk th); done.
Qed.

(** C9. For a thread built by its constructor and any polls, [run] is left
    by returning: no exception escapes it and it does not wait. On a colour
    sensor the processor and the colour SDK, each acquired once at
    construction, are each disposed of once; on another sensor neither
    call is made. When a pass fails with an exception other than
    [queue.Full], the queue and the produced frames are those the loop had
    before that pass. *)
Theorem C9_loop_exit_releases_once env camera th polls :
  __init__ env camera = Return th ->
  exists th',
    run th polls = Return th' /\
    (let n := if SENSOR_TYPE_eqb (camera_sensor_type camera) BAYER
              then 1%nat else 0%nat in
     count_ev EvColorSdkInit (log th') = n /\
     count_ev EvCreateProcessor (log th') = n /\
     count_ev EvProcessorDispose (log th') = n /\
     count_ev EvColorSdkDispose (log th') = n) /\
    (forall pre p post th_pre e,
        polls = pre ++ p :: post ->
        loop (set_frame_cnt th 0) pre = Return th_pre ->
        iteration th_pre p = Raise e -> e <> QueueFull ->
        _image_queue th' = _image_queue th_pre /\
        produced th' = produced th_pre).
Proof.
  intros Hinit.
  destruct (init_shape env camera th Hinit)
    as (_ & _ & _ & _ & Hcol & Hsdk & Hproc & Hlog).
  destruct (loop_produces polls (set_frame_cnt th 0))
    as (th1 & items & Hl & Hs & _).
  destruct Hs as (_ & Hc1 & Hs1 & Hp1 & _ & _ & Hlog1). simpl in *.
  exists (release th1). unfold run. rewrite Hl. simpl. split; [done|]. split.
  - rewrite release_log, Hc1, Hs1, Hp1, Hlog1, Hlog, Hsdk. rewrite <- Hcol.
    destruct (_is_color th).
    + destruct Hproc as [pr ->]. by vm_compute.
    + by vm_compute.
  - intros pre p post th_pre e -> Hpre Hit Hne.
    assert (loop_step th_pre p = Return (th_pre, false)) as Hstep.
    { unfold loop_step. rewrite Hit. by destruct e. }
    rewrite (loop_break pre _ th_pre p post Hpre Hstep) in Hl.
    inversion Hl; subst th1. apply release_queue.
Qed.

Lemma C9_loop_exit_releases_once_witness :
  exists th th',
    __init__ bayer_env (mkCamera BAYER 10 1 1) = Return th /\
    run th [PollFrame (mkFrame (mkArray [1; 1] [512]));
            PollRaise SdkError;
            PollFrame (mkFrame (mkArray [1; 1] [7]))] = Return th' /\
    count_ev EvProcessorDispose (log th') = 1%nat /\
    count_ev EvColorSdkDispose (log th') = 1%nat /\
    queue (_image_queue th') = [PyTuple [PyArray (mkArray [1; 1; 3] [1; 2; 3]); PyInt 0]].
Proof.
  destruct (C9_loop_exit_releases_once bayer_env (mkCamera BAYER 10 1 1)
              (mk (mkCamera BAYER 10 1 1) true true (Some (processor bayer_env)) 10
                  (CircularQueue 2) 0 false []
                  [EvColorSdkInit; EvCreateProcessor; EvSetPollTimeout 0])
              [PollFrame (mkFrame (mkArray [1; 1] [512]));
               PollRaise SdkError;
               PollFrame (mkFrame (mkArray [1; 1] [7]))] eq_refl)
    as (th' & Hrun & (_ & _ & Hp & Hs) & Hfault).
  eexists. exists th'. split; [reflexivity|]. split; [exact Hrun|].
  split; [exact Hp|]. split; [exact Hs|].
  destruct (Hfault [PollFrame (mkFrame (mkArray [1; 1] [512]))]
              (PollRaise SdkError)
              [PollFrame (mkFrame (mkArray [1; 1] [7]))] _ SdkError
              eq_refl eq_refl eq_refl ltac:(discriminate)) as [-> _].
  reflexivity.
Defined.

End ThreadFacts.

(** ** The controller *)

Section ControllerFacts.

Implicit Types (s : Controller.state) (env : Env).

(** Unfolds the plumbing of controller code. *)
Ltac unfold_ctl :=
  unfold Controller.get_nowait, Controller.store_queue, Controller.close,
    Controller.join, Controller.init_body, Controller.sdk, Controller.mbind,
    Controller.try_except, Controller.raise, Controller.ret, Controller.record,
    Controller.set_self, Controller.get_self, Controller.set_armed,
    Controller.get_armed, Controller.lift, Controller._image_queue in *.

(** Splits on every call that the oracle can make fail, and on the other
    tests of the constructor. *)
Ltac split_init env idx :=
  repeat match goal with
  | |- context [fails env ?c] => destruct (fails env c) eqn:?; simpl
  | |- context [bool_decide ?P] => destruct (bool_decide P) eqn:?; simpl
  | |- context [idx >=? ?n] => destruct (idx >=? n) eqn:?; simpl
  | |- context [py_getitem ?l ?i] => destruct (py_getitem l i) eqn:?; simpl
  | |- context [AcquisitionThread.__init__ ?e ?c] =>
      destruct (AcquisitionThread.__init__ e c) eqn:?; simpl
  end.

(** What the body of the constructor leaves behind, however it ends: no
    release call was made, a thread that exists was started unless the
    start itself failed, and when the body returns the controller holds
    the SDK, the camera and a started thread fresh from its constructor. *)
Lemma init_body_facts env idx r s1 :
  Controller.init_body env idx Controller.fresh = (r, s1) ->
  Forall (fun e => is_release e = false) (Controller.calls s1) /\
  (fails env CallThreadStart = None ->
   forall th, Controller._acquisition_thread (Controller.self s1) = Some th ->
              AcquisitionThread._started th = true) /\
  (r = Return tt ->
   exists cam th0,
     AcquisitionThread.__init__ env cam = Return th0 /\
     Controller.self s1 =
       Controller.mk true (Some cam) (Some (AcquisitionThread.set_started th0 true))).
Proof.
  unfold_ctl. unfold Controller.fresh. simpl. split_init env idx.
  all: intros H; inversion H; subst; simpl.
  all: split; [repeat constructor|].
  all: split; [intros Hs th' Hth; try congruence; try (by inversion Hth)|].
  all: intros Hr; try congruence; eauto.
Qed.

(** The constructor returns only when its body does. *)
Lemma init_return env idx s :
  Controller.__init__ env idx Controller.fresh = (Return tt, s) ->
  Controller.init_body env idx Controller.fresh = (Return tt, s).
Proof.
  unfold Controller.__init__.
  unfold Controller.mbind at 1. unfold Controller.set_self at 1. simpl.
  change (Controller.mkState (Controller.mk false None None) false [])
    with Controller.fresh.
  unfold Controller.try_except.
  destruct (Controller.init_body env idx Controller.fresh) as [[[]|e|] s1]; [done| |done].
  unfold Controller.mbind, Controller.raise.
  destruct (Controller.close s1) as [[[]|e'|] s2]; done.
Qed.


(** [close] written out: which calls it adds, and that it returns when the
    thread, if there is one, was started. *)
Lemma close_eq s :
  (forall th, Controller._acquisition_thread (Controller.self s) = Some th ->
              AcquisitionThread._started th = true) ->
  Controller.close s =
  (Return tt,
   Controller.mkState (Controller.self s)
     (match Controller._camera (Controller.self s) with
      | Some _ => false
      | None => Controller.is_armed s
      end)
     (Controller.calls s
      ++ match Controller._acquisition_thread (Controller.self s) with
         | Some _ => [EvThreadStop; EvThreadJoin]
         | None => []
         end
      ++ match Controller._camera (Controller.self s) with
         | Some _ => (if Controller.is_armed s then [EvDisarm] else [])
                     ++ [EvCameraDispose]
         | None => []
         end
      ++ (if Controller._sdk (Controller.self s) then [EvSdkDispose] else []))).
Proof.
  intros Hst. destruct s as [[sdk cam th] armed log]. simpl in *.
  unfold_ctl. simpl.
  destruct th as [th|]; simpl.
  - rewrite (Hst th eq_refl). simpl.
    destruct cam; simpl; destruct armed; simpl; destruct sdk; simpl;
      rewrite <- ?app_assoc; simpl; rewrite ?app_nil_r; done.
  - destruct cam; simpl; destruct armed; simpl; destruct sdk; simpl;
      rewrite <- ?app_assoc; simpl; rewrite ?app_nil_r; done.
Qed.

(** [get_nowait] on a controller whose queue has a head. *)
Lemma ctl_get_nowait_cons s th x rest :
  Controller._acquisition_thread (Controller.self s) = Some th ->
  queue (AcquisitionThread._image_queue th) = x :: rest ->
  Controller.get_nowait s =
  (Return x,
   Controller.mkState
     (Controller.mk (Controller._sdk (Controller.self s))
        (Controller._camera (Controller.self s))
        (Some (AcquisitionThread.set_queue th
                 (mkQueue (maxsize (AcquisitionThread._image_queue th)) rest))))
     (Controller.is_armed s) (Controller.calls s)).
Proof.
  intros Hth Hq. destruct s as [[sdk cam th'] armed log]. simpl in *. subst th'.
  unfold_ctl. simpl. unfold AcquisitionThread.get_output_queue.
  by rewrite (get_nowait_cons _ x rest Hq).
Qed.

(** [get_nowait] on a controller whose queue is empty. *)
Lemma ctl_get_nowait_nil s th :
  Controller._acquisition_thread (Controller.self s) = Some th ->
  queue (AcquisitionThread._image_queue th) = [] ->
  Controller.get_nowait s = (Return (PyTuple [PyNone; PyNone]), s).
Proof.
  intros Hth Hq. destruct s as [[sdk cam th'] armed log]. simpl in *. subst th'.
  unfold_ctl. simpl. unfold AcquisitionThread.get_output_queue.
  by rewrite (get_nowait_nil _ Hq).
Qed.

(** Any interleaving of loop passes and [get_nowait] calls on a streaming
    controller runs to its end, keeps the controller streaming, and every
    [get_nowait] hands out a queued frame pair or [(None, None)]. *)
Lemma interleave_pairs acts : forall running s,
  Controller.streaming s ->
  exists items s',
    Controller.interleave running acts s = (Return items, s') /\
    Controller.streaming s' /\
    length items = Controller.consumes acts /\
    Forall (fun o => is_frame_pair o = true \/ o = PyTuple [PyNone; PyNone]) items.
Proof.
  induction acts as [|[p|] acts IH]; intros running s (th & Hth & Hq); simpl.
  - exists [], s. repeat split; [by exists th|done].
  - destruct running; [|apply IH; by exists th].
    destruct s as [[sdk cam th'] armed log]. simpl in *. subst th'.
    unfold Controller.mbind at 1. unfold Controller.get_self at 1. simpl.
    unfold Controller.mbind at 1. unfold Controller.lift at 1.
    destruct (loop_step_cases th p) as [(im & q & Hput & E)|[b E]]; rewrite E; simpl.
    + unfold Controller.mbind at 1. unfold Controller.set_self at 1. simpl.
      apply IH. eexists. split; [reflexivity|]. simpl.
      unfold put_nowait in Hput. rewrite put_eq in Hput. inversion Hput. simpl.
      apply Forall_app. split; [|by repeat constructor].
      destruct (_ && _); [|done].
      destruct (queue (AcquisitionThread._image_queue th)); [done|].
      by inversion Hq.
    + unfold Controller.mbind at 1. unfold Controller.set_self at 1. simpl.
      apply IH. by exists th.
  - unfold Controller.mbind at 1.
    destruct (queue (AcquisitionThread._image_queue th)) as [|x rest] eqn:E.
    + rewrite (ctl_get_nowait_nil s th Hth E).
      destruct (IH running s) as (items & s' & Hrun & Hs' & Hlen & Hall);
        [exists th; split; [done|by rewrite E]|].
      unfold Controller.mbind. rewrite Hrun. unfold Controller.ret.
      exists (PyTuple [PyNone; PyNone] :: items), s'.
      split; [done|]. split; [done|]. split; [simpl; lia|].
      constructor; [by right|done].
    + rewrite (ctl_get_nowait_cons s th x rest Hth E).
      inversion Hq as [|? ? Hx Hrest]; subst.
      cbv beta iota. unfold Controller.mbind at 1.
      match goal with |- context [Controller.interleave running acts ?s1] =>
        destruct (IH running s1) as (items & s' & Hrun & Hs' & Hlen & Hall) end.
      { eexists. split; [reflexivity|]. done. }
      rewrite Hrun. unfold Controller.ret.
      exists (x :: items), s'.
      split; [done|]. split; [done|]. split; [simpl; lia|].
      constructor; [by left|done].
Qed.

(** A controller whose constructor returned is streaming, with an empty
    queue. *)
Lemma init_streaming env idx s :
  Controller.__init__ env idx Controller.fresh = (Return tt, s) ->
  exists th, Controller._acquisition_thread (Controller.self s) = Some th /\
             queue (AcquisitionThread._image_queue th) = [].
Proof.
  intros H. apply init_return in H.
  destruct (init_body_facts env idx _ _ H) as (_ & _ & Hok).
  destruct (Hok eq_refl) as (cam & th0 & Hth0 & Hself).
  rewrite Hself. simpl. eexists. split; [reflexivity|]. simpl.
  destruct (init_shape env cam th0 Hth0) as (_ & _ & -> & _). done.
Qed.

Lemma image_queue_some s q :
  Controller._image_queue (Controller.self s) = Some q ->
  exists th, Controller._acquisition_thread (Controller.self s) = Some th /\
             q = AcquisitionThread._image_queue th.
Proof.
  unfold Controller._image_queue. intros H.
  apply fmap_Some in H as (th & Hth & ->). by exists th.
Qed.

(** What the code does. On a controller whose queue is not empty,
    [get_nowait] returns the oldest queued (frame, sequence) pair, the head
    of the queue, and removes it; the rest of the queue stays in order.
    The pair returned is the most recently enqueued one when it is the
    only one queued. *)
Theorem C3_get_nowait_returns_oldest s q x rest :
  Controller._image_queue (Controller.self s) = Some q ->
  queue q = x :: rest ->
  result_of Controller.get_nowait s = Return x /\
  Controller._image_queue (Controller.self (state_after Controller.get_nowait s)) =
    Some (mkQueue (maxsize q) rest) /\
  head (queue q) = Some x /\
  (rest = [] -> last (queue q) = Some x).
Proof.
  intros Hq Hx. destruct (image_queue_some s q Hq) as (th & Hth & ->).
  unfold result_of, state_after.
  rewrite (ctl_get_nowait_cons s th x rest Hth Hx). simpl.
  rewrite Hx. repeat split. by intros ->.
Qed.

Lemma C3_get_nowait_returns_oldest_witness :
  result_of Controller.get_nowait
    (state_after
       (Controller.interleave true
          [Controller.Produce (PollFrame (raw_frame 4095 0));
           Controller.Produce (PollFrame (raw_frame 16 32))])
       (state_after (Controller.__init__ mono_env 0) Controller.fresh)) =
  Return (PyTuple [PyArray (mkArray [1; 2] [255; 0]); PyInt 0]).
Proof.
  refine (proj1 (C3_get_nowait_returns_oldest _
    (mkQueue 2 [PyTuple [PyArray (mkArray [1; 2] [255; 0]); PyInt 0];
                PyTuple [PyArray (mkArray [1; 2] [1; 2]); PyInt 1]])
    _ [PyTuple [PyArray (mkArray [1; 2] [1; 2]); PyInt 1]] _ _));
    reflexivity.
Defined.

(** After two frames were enqueued, [get_nowait] does not return the most
    recently enqueued pair. *)
Lemma C3_get_nowait_not_most_recent :
  let s := state_after
             (Controller.interleave true
                [Controller.Produce (PollFrame (raw_frame 4095 0));
                 Controller.Produce (PollFrame (raw_frame 16 32))])
             (state_after (Controller.__init__ mono_env 0) Controller.fresh) in
  exists q newest,
    Controller._image_queue (Controller.self s) = Some q /\
    last (queue q) = Some newest /\
    result_of Controller.get_nowait s <> Return newest.
Proof.
  eexists; eexists. split; [reflexivity|]. split; [reflexivity|].
  vm_compute. discriminate.
Qed.

(** C3. The failing input: a controller opened on the first of two
    monochrome cameras, on which the loop has enqueued two frames and no
    [get_nowait] was made yet. The frames were produced, and are queued,
    in the order 0, 1, so the most recently enqueued pair is the one
    numbered 1; [get_nowait] returns the pair numbered 0, which is another
    pair, and leaves the pair numbered 1 in the queue for the next
    call. *)
Theorem C3_get_nowait_returns_older_frame :
  let s := state_after
             (Controller.interleave true
                [Controller.Produce (PollFrame (raw_frame 4095 0));
                 Controller.Produce (PollFrame (raw_frame 16 32))])
             (state_after (Controller.__init__ mono_env 0) Controller.fresh) in
  let older := PyTuple [PyArray (mkArray [1; 2] [255; 0]); PyInt 0] in
  let newest := PyTuple [PyArray (mkArray [1; 2] [1; 2]); PyInt 1] in
  (AcquisitionThread.produced <$> Controller._acquisition_thread (Controller.self s)) =
    Some [older; newest] /\
  Controller._image_queue (Controller.self s) = Some (mkQueue 2 [older; newest]) /\
  result_of Controller.get_nowait s = Return older /\
  older <> newest /\
  result_of Controller.get_nowait s <> Return newest /\
  Controller._image_queue (Controller.self (state_after Controller.get_nowait s)) =
    Some (mkQueue 2 [newest]).
Proof.
  cbv zeta.
  split; [reflexivity|]. split; [reflexivity|]. split; [reflexivity|].
  split; [discriminate|]. split; [|reflexivity].
  vm_compute. discriminate.
Qed.

(** C4, as the code has it. When the queue is empty, [get_nowait] returns
    the pair [(None, None)]; it neither raises nor waits, and it changes
    nothing. *)
Theorem C4_get_nowait_empty_gives_pair s q :
  Controller._image_queue (Controller.self s) = Some q ->
  queue q = [] ->
  Controller.get_nowait s = (Return (PyTuple [PyNone; PyNone]), s).
Proof.
  intros Hq Hnil. destruct (image_queue_some s q Hq) as (th & Hth & ->).
  by apply (ctl_get_nowait_nil s th).
Qed.

Lemma C4_get_nowait_empty_gives_pair_witness :
  let s := state_after (Controller.__init__ mono_env 0) Controller.fresh in
  Controller.get_nowait s = (Return (PyTuple [PyNone; PyNone]), s).
Proof.
  refine (C4_get_nowait_empty_gives_pair _ (CircularQueue 2) _ _); reflexivity.
Defined.

(** C4 as stated fails: on a freshly opened controller, whose queue is
    empty, [get_nowait] does not return the bare [None]. *)
Lemma C4_get_nowait_not_bare_None :
  result_of Controller.get_nowait
    (state_after (Controller.__init__ mono_env 0) Controller.fresh) <>
  Return PyNone.
Proof. vm_compute. discriminate. Qed.

(** A pass of the loop on a streaming controller: the controller stays
    streaming and the rest of the interleaving goes on from there. *)
Lemma interleave_produce_step s p :
  Controller.streaming s ->
  exists b s1,
    Controller.streaming s1 /\
    forall rest,
      Controller.interleave true (Controller.Produce p :: rest) s =
      Controller.interleave b rest s1.
Proof.
  intros (th & Hth & Hq).
  destruct s as [[sdk cam th'] armed log]. simpl in *. subst th'.
  destruct (loop_step_cases th p) as [(im & q & Hput & E)|[b E]].
  - exists true,
      (Controller.mkState
         (Controller.mk sdk cam
            (Some (AcquisitionThread.set_frame_cnt
                     (AcquisitionThread.add_produced (AcquisitionThread.set_queue th q)
                        (PyTuple [PyArray im; PyInt (AcquisitionThread._frame_cnt th)]))
                     (AcquisitionThread._frame_cnt th + 1))))
         armed log).
    split.
    + eexists. split; [reflexivity|]. simpl.
      unfold put_nowait in Hput. rewrite put_eq in Hput. inversion Hput. simpl.
      apply Forall_app. split; [|by repeat constructor].
      destruct (_ && _); [|done].
      destruct (queue (AcquisitionThread._image_queue th)); [done|].
      by inversion Hq.
    + intros rest. simpl.
      unfold Controller.mbind at 1. unfold Controller.get_self at 1. simpl.
      unfold Controller.mbind at 1. unfold Controller.lift at 1. rewrite E. simpl.
      unfold Controller.mbind at 1. unfold Controller.set_self at 1. reflexivity.
  - exists b, (Controller.mkState (Controller.mk sdk cam (Some th)) armed log).
    split.
    + exists th. split; [reflexivity|done].
    + intros rest. simpl.
      unfold Controller.mbind at 1. unfold Controller.get_self at 1. simpl.
      unfold Controller.mbind at 1. unfold Controller.lift at 1. rewrite E. simpl.
      unfold Controller.mbind at 1. unfold Controller.set_self at 1. reflexivity.
Qed.

(** A [get_nowait] on a streaming controller: it hands out the head of
    the queue as it is at the call, or [(None, None)] when the queue is
    empty, and the controller stays streaming. *)
Lemma interleave_consume_step s :
  Controller.streaming s ->
  exists item s1 q,
    Controller.streaming s1 /\
    Controller._image_queue (Controller.self s) = Some q /\
    Forall (fun o => is_frame_pair o = true) (queue q) /\
    item = match queue q with
           | [] => PyTuple [PyNone; PyNone]
           | x :: _ => x
           end /\
    forall running rest items s',
      Controller.interleave running rest s1 = (Return items, s') ->
      Controller.interleave running (Controller.Consume :: rest) s =
      (Return (item :: items), s').
Proof.
  intros (th & Hth & Hq).
  destruct (queue (AcquisitionThread._image_queue th)) as [|x tl] eqn:E.
  - exists (PyTuple [PyNone; PyNone]), s, (AcquisitionThread._image_queue th).
    split; [exists th; split; [done|by rewrite E]|].
    split; [unfold Controller._image_queue; by rewrite Hth|].
    split; [by rewrite E|]. split; [by rewrite E|].
    intros running rest items s' Hrun. simpl.
    unfold Controller.mbind at 1. rewrite (ctl_get_nowait_nil s th Hth E).
    unfold Controller.mbind. rewrite Hrun. reflexivity.
  - exists x,
      (Controller.mkState
         (Controller.mk (Controller._sdk (Controller.self s))
            (Controller._camera (Controller.self s))
            (Some (AcquisitionThread.set_queue th
                     (mkQueue (maxsize (AcquisitionThread._image_queue th)) tl))))
         (Controller.is_armed s) (Controller.calls s)),
      (AcquisitionThread._image_queue th).
    split; [|split; [unfold Controller._image_queue; by rewrite Hth|]].
    + eexists. split; [reflexivity|]. simpl. by inversion Hq.
    + split; [by rewrite E|]. split; [by rewrite E|].
      intros running rest items s' Hrun. simpl.
      unfold Controller.mbind at 1. rewrite (ctl_get_nowait_cons s th x tl Hth E).
      cbv beta iota. unfold Controller.mbind at 1. rewrite Hrun. reflexivity.
Qed.

(** Every [get_nowait] of an interleaving on a streaming controller
    returns what the queue holds at the moment of the call: its head when
    it is not empty, [(None, None)] when it is. *)
Lemma interleave_calls acts : forall running s,
  Controller.streaming s ->
  exists items s',
    Controller.interleave running acts s = (Return items, s') /\
    forall (k : nat) item,
      items !! k = Some item ->
      exists pre post items_pre s_pre q,
        acts = pre ++ Controller.Consume :: post /\
        Controller.consumes pre = k /\
        Controller.interleave running pre s = (Return items_pre, s_pre) /\
        Controller._image_queue (Controller.self s_pre) = Some q /\
        Forall (fun o => is_frame_pair o = true) (queue q) /\
        item = match queue q with
               | [] => PyTuple [PyNone; PyNone]
               | x :: _ => x
               end.
Proof.
  induction acts as [|[p|] acts IH]; intros running s Hs.
  - exists [], s. split; [reflexivity|]. intros k item Hk. by rewrite lookup_nil in Hk.
  - destruct running.
    + destruct (interleave_produce_step s p Hs) as (b & s1 & Hs1 & Hstep).
      destruct (IH b s1 Hs1) as (items & s' & Hrun & Hcalls).
      exists items, s'. split; [by rewrite Hstep|].
      intros k item Hk.
      destruct (Hcalls k item Hk)
        as (pre & post & items_pre & s_pre & q & -> & Hc & Hpre & Hq & Hf & Hitem).
      exists (Controller.Produce p :: pre), post, items_pre, s_pre, q.
      split; [done|]. split; [done|]. split; [by rewrite Hstep|]. done.
    + destruct (IH false s Hs) as (items & s' & Hrun & Hcalls).
      exists items, s'. split; [exact Hrun|].
      intros k item Hk.
      destruct (Hcalls k item Hk)
        as (pre & post & items_pre & s_pre & q & -> & Hc & Hpre & Hq & Hf & Hitem).
      exists (Controller.Produce p :: pre), post, items_pre, s_pre, q.
      split; [done|]. split; [done|]. split; [exact Hpre|]. done.
  - destruct (interleave_consume_step s Hs)
      as (item0 & s1 & q0 & Hs1 & Hq0 & Hf0 & Hitem0 & Hstep).
    destruct (IH running s1 Hs1) as (items & s' & Hrun & Hcalls).
    exists (item0 :: items), s'. split; [by apply Hstep|].
    intros [|k] item Hk; simpl in Hk.
    + inversion Hk; subst item.
      exists [], acts, [], s, q0. split; [done|]. split; [done|].
      split; [reflexivity|]. done.
    + destruct (Hcalls k item Hk)
        as (pre & post & items_pre & s_pre & q & -> & Hc & Hpre & Hq & Hf & Hitem).
      exists (Controller.Consume :: pre), post, (item0 :: items_pre), s_pre, q.
      split; [done|]. split; [simpl; by rewrite Hc|].
      split; [by apply Hstep|]. done.
Qed.

(** C10. Once the constructor has returned, [get_nowait] on the still
    empty queue returns the pair [(None, None)], which is not [None]; and
    in any interleaving of loop passes and [get_nowait] calls every call
    returns, and what it returns is a tuple of two objects. The [k]-th
    call returns the pair of image and sequence number at the head of the
    queue as the calls and passes before it left it, when that queue is
    not empty, and exactly [(None, None)] when it is empty. *)
Theorem C10_get_nowait_always_pair env idx s acts :
  Controller.__init__ env idx Controller.fresh = (Return tt, s) ->
  result_of Controller.get_nowait s = Return (PyTuple [PyNone; PyNone]) /\
  PyTuple [PyNone; PyNone] <> PyNone /\
  exists items s',
    Controller.interleave true acts s = (Return items, s') /\
    length items = Controller.consumes acts /\
    Forall (fun o => is_pair o = true) items /\
    Forall (fun o => is_frame_pair o = true \/ o = PyTuple [PyNone; PyNone]) items /\
    forall (k : nat) item,
      items !! k = Some item ->
      exists pre post items_pre s_pre q,
        acts = pre ++ Controller.Consume :: post /\
        Controller.consumes pre = k /\
        Controller.interleave true pre s = (Return items_pre, s_pre) /\
        Controller._image_queue (Controller.self s_pre) = Some q /\
        Forall (fun o => is_frame_pair o = true) (queue q) /\
        item = match queue q with
               | [] => PyTuple [PyNone; PyNone]
               | x :: _ => x
               end.
Proof.
  intros Hinit. destruct (init_streaming env idx s Hinit) as (th & Hth & Hq).
  split; [unfold result_of; by rewrite (ctl_get_nowait_nil s th Hth Hq)|].
  split; [done|].
  assert (Controller.streaming s) as Hs.
  { exists th. split; [done|]. by rewrite Hq. }
  destruct (interleave_pairs acts true s Hs) as (items & s' & Hrun & _ & Hlen & Hall).
  destruct (interleave_calls acts true s Hs) as (items' & s'' & Hrun' & Hcalls).
  rewrite Hrun in Hrun'. inversion Hrun'; subst items' s''.
  exists items, s'. split; [done|]. split; [done|]. split; [|split; [done|exact Hcalls]].
  eapply Forall_impl; [exact Hall|]. intros o [Ho| ->]; [|done].
  destruct o as [| | |[|[] [|[] []]]]; done.
Qed.

Lemma C10_get_nowait_always_pair_witness :
  exists s',
    Controller.interleave true
      [Controller.Consume; Controller.Produce (PollFrame (raw_frame 4095 0));
       Controller.Consume; Controller.Consume]
      (state_after (Controller.__init__ mono_env 0) Controller.fresh) =
    (Return [PyTuple [PyNone; PyNone];
             PyTuple [PyArray (mkArray [1; 2] [255; 0]); PyInt 0];
             PyTuple [PyNone; PyNone]], s').
Proof.
  destruct (C10_get_nowait_always_pair mono_env 0
              (state_after (Controller.__init__ mono_env 0) Controller.fresh)
              [Controller.Consume; Controller.Produce (PollFrame (raw_frame 4095 0));
               Controller.Consume; Controller.Consume] eq_refl)
    as (_ & _ & items & s' & Hrun & _).
  exists s'. rewrite Hrun. f_equal.
  vm_compute in Hrun. by inversion Hrun.
Defined.





(** C8. When the SDK comes up, discovery finds at least one camera and
    [camera_index] is at least the number found, the body of the
    constructor raises [IndexError] with only the SDK held; [close] then
    disposes of the SDK and returns; and the constructor ends by raising
    [IndexError] in the state that [close] left: no camera was opened, no
    thread was built or started, and the SDK is disposed of. *)
Theorem C8_index_out_of_range env idx :
  fails env CallSdkInit = None ->
  fails env CallDiscover = None ->
  camera_list env <> [] ->
  Z.of_nat (length (camera_list env)) <= idx ->
  let s1 := Controller.mkState (Controller.mk true None None) false
              [EvSdkInit; EvDiscover] in
  let s2 := Controller.mkState (Controller.mk true None None) false
              [EvSdkInit; EvDiscover; EvSdkDispose] in
  Controller.init_body env idx Controller.fresh = (Raise IndexError, s1) /\
  Controller.close s1 = (Return tt, s2) /\
  Controller.__init__ env idx Controller.fresh = (Raise IndexError, s2).
Proof.
  intros Hsdk Hdisc Hne Hidx s1 s2.
  assert (Controller.init_body env idx Controller.fresh = (Raise IndexError, s1)) as Hbody.
  { unfold_ctl. unfold Controller.fresh. simpl. rewrite Hsdk. simpl.
    rewrite Hdisc. simpl. rewrite bool_decide_eq_false_2 by done.
    destruct (Z.geb_spec idx (Z.of_nat (length (camera_list env)))); [done|lia]. }
  assert (Controller.close s1 = (Return tt, s2)) as Hclose by reflexivity.
  split; [done|]. split; [done|].
  unfold Controller.__init__.
  unfold Controller.mbind at 1. unfold Controller.set_self at 1. simpl.
  change (Controller.mkState (Controller.mk false None None) false [])
    with Controller.fresh.
  unfold Controller.try_except. rewrite Hbody.
  unfold Controller.mbind. by rewrite Hclose.
Qed.

Lemma C8_index_out_of_range_witness :
  Controller.__init__ mono_env 5 Controller.fresh =
  (Raise IndexError,
   Controller.mkState (Controller.mk true None None) false
     [EvSdkInit; EvDiscover; EvSdkDispose]).
Proof.
  refine (proj2 (proj2 (C8_index_out_of_range mono_env 5 _ _ _ _)));
    [reflexivity | reflexivity | discriminate | simpl; lia].
Defined.

End ControllerFacts.

(** * Further properties *)

(** ** More on the queue *)

Section QueueMore.

Context {A : Type}.
Implicit Types (q : Queue A) (l : list A) (x : A).

Lemma bind_return {X Y : Type} (a : X) (k : X -> outcome Y) :
  bind (Return a) k = k a.
Proof. reflexivity. Qed.

(** Running two schedules one after the other. *)
Lemma run_ops_app (ops1 ops2 : list (op A)) : forall q,
  run_ops q (ops1 ++ ops2) =
  (r1 <- run_ops q ops1 ;;
   r2 <- run_ops r1.1 ops2 ;;
   Return (r2.1, r1.2 ++ r2.2)).
Proof.
  induction ops1 as [|[x|] ops1 IH]; intros q; simpl.
  - destruct (run_ops q ops2) as [[qf out]| |]; reflexivity.
  - unfold put_nowait. rewrite put_eq. simpl. apply IH.
  - destruct (queue q) as [|y rest] eqn:E.
    + rewrite (get_nowait_nil q E). rewrite IH.
      destruct (run_ops q ops1) as [[q1 o1]| |]; simpl; [|done..].
      destruct (run_ops q1 ops2) as [[q2 o2]| |]; reflexivity.
    + rewrite (get_nowait_cons q y rest E). rewrite IH.
      destruct (run_ops _ ops1) as [[q1 o1]| |]; simpl; [|done..].
      destruct (run_ops q1 ops2) as [[q2 o2]| |]; reflexivity.
Qed.

Lemma run_ops_puts l : forall q,
  run_ops q (Put <$> l) = (q' <- put_all q l ;; Return (q', [])).
Proof.
  induction l as [|x l IH]; intros q; simpl; [done|].
  unfold put_nowait. rewrite put_eq. simpl. apply IH.
Qed.

(** Takes on a queue that holds [l]: the first [n] of them hand out the
    first [n] items in order; every later take finds the queue empty. *)
Lemma run_ops_takes (n : nat) : forall q,
  run_ops q (repeat Take n) =
  Return (mkQueue (maxsize q) (drop n (queue q)),
          (Some <$> take n (queue q)) ++ repeat None (n - length (queue q))).
Proof.
  induction n as [|n IH]; intros q; simpl.
  - rewrite drop_0. by destruct q.
  - destruct (queue q) as [|y rest] eqn:E.
    + rewrite (get_nowait_nil q E), IH, E. simpl.
      rewrite drop_nil, take_nil. simpl. by rewrite Nat.sub_0_r.
    + rewrite (get_nowait_cons q y rest E), IH. simpl. done.
Qed.

(** A queue built with [maxsize <= 0] is unbounded: any number of
    puts returns and keeps every item, after those already queued. *)
Theorem put_all_unbounded q l :
  maxsize q <= 0 ->
  put_all q l = Return (mkQueue (maxsize q) (queue q ++ l)).
Proof.
  revert q. induction l as [|x l IH]; intros q Hmax; simpl.
  - rewrite app_nil_r. by destruct q.
  - unfold put_nowait. rewrite put_eq. simpl.
    destruct (Z.ltb_spec 0 (maxsize q)); [lia|]. simpl.
    rewrite IH by done. simpl. by rewrite <- app_assoc.
Qed.

(** [put] returns for every queue and either value of [block], with
    the same result; the capacity is kept, the item put is the newest in
    the queue, and the size stays as it was when the queue was full and
    grows by one otherwise. *)
Theorem put_always_returns q x (block : bool) :
  exists q',
    put q x block = Return q' /\
    put q x (negb block) = Return q' /\
    maxsize q' = maxsize q /\
    last (queue q') = Some x /\
    _qsize q' = if (0 <? maxsize q) && (maxsize q <=? _qsize q)
                then _qsize q else _qsize q + 1.
Proof.
  eexists. split; [apply put_eq|]. split; [apply put_eq|]. simpl.
  split; [done|]. split; [apply last_snoc|].
  unfold _qsize. simpl. rewrite length_app. simpl.
  destruct (Z.ltb_spec 0 (maxsize q)); simpl; [|lia].
  destruct (Z.leb_spec (maxsize q) (Z.of_nat (length (queue q)))); [|lia].
  destruct (queue q); simpl in *; lia.
Qed.

(** Any interleaving of puts and takes on a queue of positive capacity
    that starts within its capacity runs to its end, answers every take,
    and leaves the queue within its capacity. *)
Theorem run_ops_within_capacity (ops : list (op A)) : forall q,
  0 < maxsize q -> _qsize q <= maxsize q ->
  exists qf out,
    run_ops q ops = Return (qf, out) /\
    maxsize qf = maxsize q /\
    _qsize qf <= maxsize q /\
    length out = takes_of ops.
Proof.
  induction ops as [|[x|] ops IH]; intros q Hpos Hsz; simpl.
  - by exists q, [].
  - unfold put_nowait. rewrite put_lastn by done. simpl.
    destruct (IH (mkQueue (maxsize q)
                    (lastn (Z.to_nat (maxsize q)) (queue q ++ [x]))))
      as (qf & out & Hrun & Hm & Hs & Hl); simpl; [done| |].
    + unfold _qsize. simpl. rewrite lastn_length. lia.
    + by exists qf, out.
  - destruct (queue q) as [|y rest] eqn:E.
    + rewrite (get_nowait_nil q E).
      destruct (IH q Hpos Hsz) as (qf & out & -> & Hm & Hs & Hl). simpl.
      exists qf, (None :: out). simpl. by rewrite Hl.
    + rewrite (get_nowait_cons q y rest E).
      destruct (IH (mkQueue (maxsize q) rest)) as (qf & out & -> & Hm & Hs & Hl);
        simpl; [done| |].
      * unfold _qsize in *. rewrite E in Hsz. simpl in *. lia.
      * exists qf, (Some y :: out). simpl. by rewrite Hl.
Qed.

(** Nothing is lost within the capacity: putting [l] into an empty
    queue that is unbounded or has room for all of [l], then taking as
    many times, hands out exactly [l] in order and leaves the queue
    empty. *)
Theorem put_then_take_round_trip (C : Z) l :
  C <= 0 \/ Z.of_nat (length l) <= C ->
  run_ops (CircularQueue C) ((Put <$> l) ++ repeat Take (length l)) =
  Return (mkQueue C [], Some <$> l).
Proof.
  intros HC. rewrite run_ops_app, run_ops_puts.
  assert (put_all (CircularQueue C) l = Return (mkQueue C l)) as ->.
  { destruct (decide (C <= 0)) as [Hle|Hgt].
    - by rewrite put_all_unbounded.
    - rewrite put_all_lastn; simpl; [|lia|unfold _qsize; simpl; lia].
      rewrite lastn_all; [done|lia]. }
  simpl. rewrite run_ops_takes. simpl.
  rewrite drop_all, firstn_all, Nat.sub_diag. simpl. by rewrite app_nil_r.
Qed.

End QueueMore.

Lemma put_all_unbounded_witness :
  put_all (CircularQueue 0) [1; 2; 3] = Return (mkQueue 0 [1; 2; 3]).
Proof. apply (put_all_unbounded (CircularQueue 0) [1; 2; 3]). simpl. lia. Defined.

Lemma run_ops_within_capacity_witness :
  exists qf out,
    run_ops (CircularQueue 2) [Put 1; Put 2; Put 3; Take; Put 4] = Return (qf, out) /\
    maxsize qf = 2 /\ _qsize qf <= 2 /\ length out = 1%nat.
Proof.
  apply (run_ops_within_capacity [Put 1; Put 2; Put 3; Take; Put 4] (CircularQueue 2));
    [simpl; lia | vm_compute; discriminate].
Defined.

Lemma put_then_take_round_trip_witness :
  run_ops (CircularQueue 2) [Put 5; Put 6; Take; Take] =
  Return (mkQueue 2 [], [Some 5; Some 6]).
Proof. apply (put_then_take_round_trip 2 [5; 6]). right. simpl. lia. Defined.

(** ** More on the acquisition thread *)

Section ThreadMore.

Import AcquisitionThread.

Implicit Types (th : t) (p : poll) (polls : list poll).

Lemma mono_sample_range (b v : Z) : 0 <= mono_sample b v < 256.
Proof. unfold mono_sample. apply Z.mod_pos_bound. lia. Qed.

Lemma mono_sample_low_bits (b v : Z) :
  8 <= b -> mono_sample b v = mono_sample b (v mod 2 ^ b).
Proof.
  intros Hb. unfold mono_sample. change 256 with (2 ^ 8).
  apply Z.bits_inj'. intros n Hn.
  destruct (decide (n < 8)) as [Hlt|Hge].
  - rewrite !Z.mod_pow2_bits_low by lia.
    rewrite !Z.shiftr_spec by lia.
    by rewrite Z.mod_pow2_bits_low by lia.
  - by rewrite !Z.mod_pow2_bits_high by lia.
Qed.

(** On the monochrome path with bit depth [b >= 8] the conversion
    never raises and keeps the shape; each sample [v] becomes
    [(v >> (b - 8)) mod 256], which lies in [0, 256) and depends only on
    the low [b] bits of [v]: a sample of [2^b] or more is not clipped, it
    wraps around. *)
Theorem mono_path_wraps th frame :
  _is_color th = false ->
  8 <= _bit_depth th ->
  exists out,
    _process_frame th frame = Return out /\
    shape out = shape (image_buffer frame) /\
    data out = mono_sample (_bit_depth th) <$> data (image_buffer frame) /\
    Forall (fun s => 0 <= s < 256) (data out) /\
    data out =
      mono_sample (_bit_depth th) <$>
        ((fun v => v mod 2 ^ _bit_depth th) <$> data (image_buffer frame)).
Proof.
  intros Hmono Hb. unfold _process_frame. rewrite Hmono.
  eexists. split; [reflexivity|]. simpl. split; [done|].
  assert (forall l : list Z,
             (fun v => v mod 256) <$> ((fun v => Z.shiftr v (_bit_depth th - 8)) <$> l)
                    = mono_sample (_bit_depth th) <$> l) as Hmap.
  { intros l. by rewrite <- list_fmap_compose. }
  change (map (fun v => v mod 256)
            (map (fun v => Z.shiftr v (_bit_depth th - 8)) (data (image_buffer frame))))
    with ((fun v => v mod 256) <$>
            ((fun v => Z.shiftr v (_bit_depth th - 8)) <$> data (image_buffer frame))).
  rewrite Hmap. split; [done|]. split.
  - apply Forall_fmap, Forall_true. intros v. apply mono_sample_range.
  - rewrite <- list_fmap_compose. apply list_fmap_ext.
    intros i v _. simpl. by apply mono_sample_low_bits.
Qed.

Lemma mono_path_wraps_witness :
  _process_frame
    (mk (mkCamera MONOCHROME 10 2 1) false false None 10 (CircularQueue 2) 0 false [] [])
    (mkFrame (mkArray [1; 2] [1023; 1024])) =
  Return (mkArray [1; 2] [255; 0]).
Proof.
  destruct (mono_path_wraps
    (mk (mkCamera MONOCHROME 10 2 1) false false None 10 (CircularQueue 2) 0 false [] [])
    (mkFrame (mkArray [1; 2] [1023; 1024])) eq_refl ltac:(simpl; lia))
    as (out & -> & Hshape & Hdata & _).
  destruct out as [sh d]. simpl in *. by subst.
Defined.

(** On the colour path with positive image dimensions, a returned
    image has the shape (height, width, 3) and exactly
    [height * width * 3] samples, those the processor returned; when the
    processor returns another number of samples the conversion raises
    [ValueError], and when the processor raises, so does the
    conversion. *)
Theorem color_path_shape th frame pr :
  _is_color th = true ->
  _mono_to_color_processor th = Some pr ->
  0 < image_width_pixels (_camera th) ->
  0 < image_height_pixels (_camera th) ->
  let w := image_width_pixels (_camera th) in
  let h := image_height_pixels (_camera th) in
  let r := transform_to_24 pr (image_buffer frame) w h in
  (forall out, _process_frame th frame = Return out ->
     shape out = [h; w; 3] /\ Z.of_nat (length (data out)) = h * w * 3 /\
     exists c, r = inr c /\ data out = data c) /\
  (forall c, r = inr c -> Z.of_nat (length (data c)) <> h * w * 3 ->
     _process_frame th frame = Raise ValueError) /\
  (forall e, r = inl e -> _process_frame th frame = Raise e).
Proof.
  intros Hcol Hpr Hw Hh w h r. unfold _process_frame. rewrite Hcol, Hpr.
  fold w h r. destruct r as [e|c]; simpl.
  - split; [done|]. split; [done|]. by intros ? [= ->].
  - unfold reshape. simpl.
    destruct (Z.eqb_spec (h * (w * (3 * 1))) (Z.of_nat (length (data c)))) as [Heq|Hne].
    + split.
      * intros out [= <-]. simpl. split; [done|]. split; [lia|]. by exists c.
      * split; [|done]. intros c' [= <-] Hbad. lia.
    + split; [done|]. split; [|done]. by intros c' [= <-] _.
Qed.

Lemma color_path_shape_witness :
  shape (mkArray [1; 1; 3] [1; 2; 3]) = [1; 1; 3] /\
  Z.of_nat (length (data (mkArray [1; 1; 3] [1; 2; 3]))) = 1 * 1 * 3 /\
  exists c,
    transform_to_24 (processor bayer_env) (mkArray [1; 1] [512]) 1 1 = inr c /\
    data (mkArray [1; 1; 3] [1; 2; 3]) = data c.
Proof.
  exact (proj1 (color_path_shape
    (mk (mkCamera BAYER 10 1 1) true true (Some (processor bayer_env)) 10
        (CircularQueue 2) 0 false [] [])
    (mkFrame (mkArray [1; 1] [512])) (processor bayer_env)
    eq_refl eq_refl ltac:(simpl; lia) ltac:(simpl; lia))
    (mkArray [1; 1; 3] [1; 2; 3]) eq_refl).
Defined.

Lemma loop_idle polls : forall th,
  loop th polls = loop th (filter (fun p => negb (is_idle p)) polls).
Proof.
  induction polls as [|p polls IH]; intros th; [done|].
  rewrite filter_cons. destruct (is_idle p) eqn:Hp; simpl.
  - destruct p as [| |[]]; try discriminate; simpl; apply IH.
  - destruct (loop_step th p) as [[th1 [|]]| |]; simpl; [apply IH|done..].
Qed.

(** Passes in which no frame is pending, and passes whose poll raises
    [queue.Full], leave no trace: [run] gives the same result with those
    polls removed. *)
Theorem run_skips_idle_polls th polls :
  run th polls = run th (filter (fun p => negb (is_idle p)) polls).
Proof. unfold run. by rewrite loop_idle. Qed.

(** A poll that raises anything but [queue.Full] ends the loop for
    good: what would have been polled after it is never looked at. *)
Theorem run_stops_at_fatal_poll th pre e post :
  e <> QueueFull ->
  run th (pre ++ PollRaise e :: post) = run th pre.
Proof.
  intros He. unfold run.
  destruct (loop_produces pre (set_frame_cnt th 0)) as (th1 & items & Hl & _).
  rewrite Hl, (loop_break pre _ th1 (PollRaise e) post Hl); [done|].
  unfold loop_step, iteration. by destruct e.
Qed.

Lemma run_stops_at_fatal_poll_witness :
  run (mk (mkCamera MONOCHROME 12 2 1) false false None 12 (CircularQueue 2) 0 true [] [])
      ([PollFrame (raw_frame 4095 0)] ++ PollRaise SdkError :: [PollFrame (raw_frame 1 2)]) =
  run (mk (mkCamera MONOCHROME 12 2 1) false false None 12 (CircularQueue 2) 0 true [] [])
      [PollFrame (raw_frame 4095 0)].
Proof. apply run_stops_at_fatal_poll. discriminate. Defined.

Lemma loop_queue polls : forall th th',
  maxsize (_image_queue th) = 2 ->
  queue (_image_queue th) = lastn 2 (produced th) ->
  loop th polls = Return th' ->
  maxsize (_image_queue th') = 2 /\
  queue (_image_queue th') = lastn 2 (produced th').
Proof.
  induction polls as [|p polls IH]; intros th th' Hm Hq; simpl.
  - by intros [= <-].
  - destruct (loop_step_cases th p) as [(im & q & Hput & E)|[b E]]; rewrite E; simpl.
    + apply IH; simpl.
      * unfold put_nowait in Hput. rewrite put_eq in Hput. by inversion Hput.
      * unfold put_nowait in Hput. rewrite put_lastn in Hput.
        -- inversion Hput. simpl. rewrite Hm, Hq. simpl.
           change (Pos.to_nat 2) with 2%nat. apply lastn_lastn_app.
        -- lia.
        -- unfold _qsize. rewrite Hq, lastn_length. lia.
    + destruct b; [by apply IH|]. by intros [= <-].
Qed.

(** After [run] on a thread fresh from its constructor, the queue
    holds the last two frames produced, or all of them when fewer were
    produced, oldest first. *)
Theorem run_queue_is_last_two env camera th polls :
  __init__ env camera = Return th ->
  exists th',
    run th polls = Return th' /\
    queue (_image_queue th') = lastn 2 (produced th') /\
    (length (queue (_image_queue th')) = length (produced th') `min` 2)%nat.
Proof.
  intros Hinit.
  destruct (init_shape env camera th Hinit) as (_ & Hp & Hq & _).
  destruct (loop_produces polls (set_frame_cnt th 0)) as (th1 & items & Hl & _).
  destruct (loop_queue polls (set_frame_cnt th 0) th1) as [_ Hq1]; simpl;
    [by rewrite Hq|by rewrite Hq, Hp|done|].
  exists (release th1). unfold run. rewrite Hl. simpl. split; [done|].
  destruct (release_queue th1) as [-> ->]. split; [done|].
  by rewrite Hq1, lastn_length.
Qed.

Lemma run_queue_is_last_two_witness :
  exists th',
    run (mk (mkCamera MONOCHROME 12 2 1) false false None 12 (CircularQueue 2) 0 false []
            [EvSetPollTimeout 0])
        [PollFrame (raw_frame 16 32); PollFrame (raw_frame 48 64);
         PollFrame (raw_frame 80 96)] = Return th' /\
    queue (_image_queue th') =
      [PyTuple [PyArray (mkArray [1; 2] [3; 4]); PyInt 1];
       PyTuple [PyArray (mkArray [1; 2] [5; 6]); PyInt 2]].
Proof.
  destruct (run_queue_is_last_two mono_env (mkCamera MONOCHROME 12 2 1) _
              [PollFrame (raw_frame 16 32); PollFrame (raw_frame 48 64);
               PollFrame (raw_frame 80 96)] eq_refl) as (th' & Hrun & Hq & _).
  exists th'. split; [exact Hrun|].
  vm_compute in Hrun. inversion Hrun; subst th'. reflexivity.
Defined.

(** The item the monochrome path enqueues for frame [f] as number [n] at
    bit depth [b]. *)
Lemma mono_iteration th f :
  _is_color th = false ->
  exists q,
    loop_step th (PollFrame f) =
    Return (set_frame_cnt
              (add_produced (set_queue th q)
                 (PyTuple [PyArray (mkArray (shape (image_buffer f))
                                      (mono_sample (_bit_depth th) <$> data (image_buffer f)));
                           PyInt (_frame_cnt th)]))
              (_frame_cnt th + 1), true).
Proof.
  intros Hmono. unfold loop_step, iteration, _process_frame. rewrite Hmono. simpl.
  unfold put_nowait. rewrite put_eq. simpl. eexists.
  unfold astype_uint8, rshift, mono_sample. simpl.
  rewrite !List.map_map. reflexivity.
Qed.

Lemma mono_loop polls : forall th,
  _is_color th = false ->
  exists th',
    loop th polls = Return th' /\
    produced th' =
      produced th ++
      imap (fun i f =>
              PyTuple [PyArray (mkArray (shape (image_buffer f))
                                  (mono_sample (_bit_depth th) <$> data (image_buffer f)));
                       PyInt (_frame_cnt th + Z.of_nat i)])
           (polled_frames polls) /\
    _frame_cnt th' = _frame_cnt th + Z.of_nat (length (polled_frames polls)).
Proof.
  induction polls as [|p polls IH]; intros th Hmono.
  - exists th. simpl. rewrite app_nil_r. split; [done|]. split; [done|lia].
  - destruct p as [|f|e].
    + simpl. apply IH, Hmono.
    + destruct (mono_iteration th f Hmono) as [q Hstep].
      cbn [loop polled_frames]. rewrite Hstep. simpl.
      match goal with |- context [loop ?x polls] =>
        destruct (IH x Hmono) as (th' & Hl & Hp & Hc) end.
      exists th'. split; [exact Hl|]. simpl in Hp, Hc. split.
      * rewrite Hp, <- app_assoc. simpl. do 2 f_equal.
        -- simpl. by rewrite Z.add_0_r.
        -- apply imap_ext. intros i x _. simpl. do 4 f_equal. lia.
      * rewrite Hc. lia.
    + destruct e; simpl; try (apply IH, Hmono);
        (exists th; simpl; rewrite app_nil_r; split; [done|]; split; [done|lia]).
Qed.

(** On a sensor that is not a Bayer sensor, with bit depth at least
    8, [run] produces one frame for every frame polled before the first
    poll that raises something other than [queue.Full], in the order
    polled: the [i]-th carries the converted image of the [i]-th polled
    frame and the sequence number [i]. *)
Theorem mono_run_produces env camera th polls :
  __init__ env camera = Return th ->
  camera_sensor_type camera <> BAYER ->
  8 <= bit_depth camera ->
  exists th',
    run th polls = Return th' /\
    produced th' =
      imap (fun i f =>
              PyTuple [PyArray (mkArray (shape (image_buffer f))
                                  (mono_sample (bit_depth camera) <$> data (image_buffer f)));
                       PyInt (Z.of_nat i)])
           (polled_frames polls) /\
    _frame_cnt th' = Z.of_nat (length (polled_frames polls)).
Proof.
  intros Hinit Hsensor _.
  destruct (init_shape env camera th Hinit) as (_ & Hp & _ & Hb & Hcol & _).
  assert (_is_color th = false) as Hmono.
  { rewrite Hcol. by destruct (camera_sensor_type camera). }
  destruct (mono_loop polls (set_frame_cnt th 0) Hmono) as (th1 & Hl & Hp1 & Hc1).
  simpl in *. unfold run. rewrite Hl. simpl. exists (release th1).
  split; [done|].
  assert (release th1 = th1) as ->.
  { unfold release. destruct (loop_produces polls (set_frame_cnt th 0))
      as (th2 & items & Hl2 & Hs & _).
    rewrite Hl in Hl2. inversion Hl2; subst th2.
    destruct Hs as (_ & -> & _). simpl. by rewrite Hmono. }
  rewrite Hp1, Hp, Hc1, Hb. simpl. split; [|lia].
  apply imap_ext. intros i x _. simpl. do 4 f_equal.
Qed.

Lemma mono_run_produces_witness :
  exists th',
    run (mk (mkCamera MONOCHROME 12 2 1) false false None 12 (CircularQueue 2) 0 false []
            [EvSetPollTimeout 0])
        [PollFrame (raw_frame 16 32); PollNone; PollRaise SdkError;
         PollFrame (raw_frame 80 96)] = Return th' /\
    produced th' = [PyTuple [PyArray (mkArray [1; 2] [1; 2]); PyInt 0]].
Proof.
  destruct (mono_run_produces mono_env (mkCamera MONOCHROME 12 2 1) _
              [PollFrame (raw_frame 16 32); PollNone; PollRaise SdkError;
               PollFrame (raw_frame 80 96)] eq_refl
              ltac:(discriminate) ltac:(simpl; lia)) as (th' & Hrun & Hp & _).
  exists th'. split; [exact Hrun|]. rewrite Hp. reflexivity.
Defined.

End ThreadMore.

(** ** More on the controller *)

Section ControllerMore.

Implicit Types (s : Controller.state) (env : Env).

Ltac unfold_ctl :=
  unfold Controller.get_nowait, Controller.store_queue, Controller.close,
    Controller.join, Controller.init_body, Controller.sdk, Controller.mbind,
    Controller.try_except, Controller.raise, Controller.ret, Controller.record,
    Controller.set_self, Controller.get_self, Controller.set_armed,
    Controller.get_armed, Controller.lift, Controller._image_queue in *.

Ltac split_init env idx :=
  repeat match goal with
  | |- context [fails env ?c] => destruct (fails env c) eqn:?; simpl
  | |- context [bool_decide ?P] => destruct (bool_decide P) eqn:?; simpl
  | |- context [idx >=? ?n] => destruct (idx >=? n) eqn:?; simpl
  | |- context [py_getitem ?l ?i] => destruct (py_getitem l i) eqn:?; simpl
  | |- context [AcquisitionThread.__init__ ?e ?c] =>
      destruct (AcquisitionThread.__init__ e c) eqn:?; simpl
  end.

(** Python indexing of a list. *)
Lemma py_getitem_inside {X : Type} (l : list X) (i : Z) :
  0 <= i < Z.of_nat (length l) ->
  exists x, l !! Z.to_nat i = Some x /\ py_getitem l i = Return x.
Proof.
  intros Hi. unfold py_getitem.
  destruct (Z.ltb_spec i 0); [lia|].
  destruct (Z.leb_spec 0 i); [|lia]. destruct (Z.ltb_spec i (Z.of_nat (length l))); [|lia].
  simpl. destruct (lookup_lt_is_Some_2 l (Z.to_nat i)) as [x Hx]; [lia|].
  exists x. by rewrite Hx.
Qed.

Lemma py_getitem_negative {X : Type} (l : list X) (i : Z) :
  - Z.of_nat (length l) <= i < 0 ->
  py_getitem l i = py_getitem l (i + Z.of_nat (length l)).
Proof.
  intros Hi. unfold py_getitem.
  destruct (Z.ltb_spec i 0); [|lia].
  destruct (Z.ltb_spec (i + Z.of_nat (length l)) 0); [lia|]. done.
Qed.

Lemma py_getitem_below {X : Type} (l : list X) (i : Z) :
  i < - Z.of_nat (length l) -> py_getitem l i = Raise IndexError.
Proof.
  intros Hi. unfold py_getitem.
  destruct (Z.ltb_spec i 0); [|lia].
  destruct (Z.leb_spec 0 (i + Z.of_nat (length l))); [lia|]. done.
Qed.

(** The constructor is its body followed, on an exception, by [close] and
    a re-raise. *)
Lemma init_unfold env idx :
  Controller.__init__ env idx Controller.fresh =
  match Controller.init_body env idx Controller.fresh with
  | (Raise e, s1) =>
      match Controller.close s1 with
      | (Return _, s2) => (Raise e, s2)
      | (Raise e', s2) => (Raise e', s2)
      | (Block, s2) => (Block, s2)
      end
  | r => r
  end.
Proof.
  unfold Controller.__init__.
  unfold Controller.mbind at 1. unfold Controller.set_self at 1. simpl.
  change (Controller.mkState (Controller.mk false None None) false [])
    with Controller.fresh.
  unfold Controller.try_except.
  destruct (Controller.init_body env idx Controller.fresh) as [[[]|e|] s1]; try done.
Qed.

(** The state in which the body of the constructor returns. *)
Lemma init_body_return env idx s1 :
  Controller.init_body env idx Controller.fresh = (Return tt, s1) ->
  exists serial th0,
    py_getitem (camera_list env) idx = Return serial /\
    AcquisitionThread.__init__ env (camera_of env serial) = Return th0 /\
    s1 = Controller.mkState
           (Controller.mk true (Some (camera_of env serial))
              (Some (AcquisitionThread.set_started th0 true)))
           true
           [EvSdkInit; EvDiscover; EvOpenCamera serial; EvThreadStart;
            EvSetFramesPerTrigger 0; EvArm 2; EvTrigger; EvName].
Proof.
  unfold_ctl. unfold Controller.fresh. simpl. split_init env idx.
  all: intros H; inversion H; subst; eauto.
Qed.

(** When no SDK call fails and [camera_index] is a valid Python
    index of the device list, negative ones counting from the end, the
    constructor returns with the camera at that position opened, the
    thread built and started, the camera armed with two buffers and
    triggered, and nothing released. *)
Theorem init_opens_selected_camera env idx :
  (forall c, fails env c = None) ->
  - Z.of_nat (length (camera_list env)) <= idx < Z.of_nat (length (camera_list env)) ->
  exists serial th0,
    camera_list env !! Z.to_nat (idx `mod` Z.of_nat (length (camera_list env)))
      = Some serial /\
    AcquisitionThread.__init__ env (camera_of env serial) = Return th0 /\
    Controller.__init__ env idx Controller.fresh =
    (Return tt,
     Controller.mkState
       (Controller.mk true (Some (camera_of env serial))
          (Some (AcquisitionThread.set_started th0 true)))
       true
       [EvSdkInit; EvDiscover; EvOpenCamera serial; EvThreadStart;
        EvSetFramesPerTrigger 0; EvArm 2; EvTrigger; EvName]).
Proof.
  intros Hall Hidx.
  set (n := Z.of_nat (length (camera_list env))) in *.
  assert (exists serial, camera_list env !! Z.to_nat (idx `mod` n) = Some serial /\
                         py_getitem (camera_list env) idx = Return serial)
    as (serial & Hlook & Hget).
  { destruct (decide (0 <= idx)) as [Hnn|Hneg].
    - rewrite Z.mod_small by lia. apply py_getitem_inside. lia.
    - rewrite py_getitem_negative by (fold n; lia). fold n.
      replace (idx `mod` n) with (idx + n).
      + apply py_getitem_inside. fold n. lia.
      + apply Z.mod_unique with (q := -1); lia. }
  assert (exists th0, AcquisitionThread.__init__ env (camera_of env serial) = Return th0)
    as [th0 Hth0].
  { unfold AcquisitionThread.__init__, AcquisitionThread.attempt.
    rewrite !Hall. simpl. destruct (SENSOR_TYPE_eqb _ _); eauto. }
  exists serial, th0. split; [done|]. split; [done|].
  rewrite init_unfold.
  assert (camera_list env <> []) as Hne.
  { intros E. subst n. rewrite E in Hidx. simpl in Hidx. lia. }
  unfold_ctl. unfold Controller.fresh. simpl. rewrite !Hall. simpl.
  rewrite bool_decide_eq_false_2 by done.
  destruct (Z.geb_spec idx (Z.of_nat (length (camera_list env)))); [subst n; lia|].
  rewrite Hget. simpl. rewrite Hth0. simpl. reflexivity.
Qed.

Lemma init_opens_selected_camera_witness :
  exists th0,
    Controller.__init__ mono_env (-1) Controller.fresh =
    (Return tt,
     Controller.mkState
       (Controller.mk true (Some (mkCamera MONOCHROME 12 2 1))
          (Some (AcquisitionThread.set_started th0 true)))
       true
       [EvSdkInit; EvDiscover; EvOpenCamera 9; EvThreadStart;
        EvSetFramesPerTrigger 0; EvArm 2; EvTrigger; EvName]).
Proof.
  destruct (init_opens_selected_camera mono_env (-1) (fun _ => eq_refl)
              ltac:(simpl; lia)) as (serial & th0 & Hlook & _ & Hinit).
  vm_compute in Hlook. inversion Hlook; subst serial.
  exists th0. exact Hinit.
Defined.

(** When the SDK comes up and discovery finds no camera, the
    constructor raises [ConnectionError] after disposing of the SDK; no
    camera is opened and no thread is built. *)
Theorem init_no_cameras env idx :
  fails env CallSdkInit = None ->
  fails env CallDiscover = None ->
  camera_list env = [] ->
  Controller.__init__ env idx Controller.fresh =
  (Raise ConnectionError,
   Controller.mkState (Controller.mk true None None) false
     [EvSdkInit; EvDiscover; EvSdkDispose]).
Proof.
  intros Hsdk Hdisc Hnil. rewrite init_unfold.
  unfold_ctl. unfold Controller.fresh. simpl. rewrite Hsdk. simpl.
  rewrite Hdisc. simpl. rewrite bool_decide_eq_true_2 by done. reflexivity.
Qed.

Lemma init_no_cameras_witness :
  Controller.__init__
    (mkEnv (fun _ => None) [] (fun _ => mkCamera MONOCHROME 12 2 1)
           (mkProcessor (fun _ _ _ => inl SdkError)))
    0 Controller.fresh =
  (Raise ConnectionError,
   Controller.mkState (Controller.mk true None None) false
     [EvSdkInit; EvDiscover; EvSdkDispose]).
Proof. apply init_no_cameras; reflexivity. Defined.

(** A [camera_index] below minus the number of cameras passes the
    explicit range test, which only looks upwards; the list indexing then
    raises [IndexError], and the constructor re-raises it after disposing
    of the SDK, with no camera opened. *)
Theorem init_index_below_range env idx :
  fails env CallSdkInit = None ->
  fails env CallDiscover = None ->
  camera_list env <> [] ->
  idx < - Z.of_nat (length (camera_list env)) ->
  Controller.__init__ env idx Controller.fresh =
  (Raise IndexError,
   Controller.mkState (Controller.mk true None None) false
     [EvSdkInit; EvDiscover; EvSdkDispose]).
Proof.
  intros Hsdk Hdisc Hne Hidx. rewrite init_unfold.
  unfold_ctl. unfold Controller.fresh. simpl. rewrite Hsdk. simpl.
  rewrite Hdisc. simpl. rewrite bool_decide_eq_false_2 by done.
  destruct (Z.geb_spec idx (Z.of_nat (length (camera_list env)))); [lia|].
  rewrite py_getitem_below by done. reflexivity.
Qed.

Lemma init_index_below_range_witness :
  Controller.__init__ mono_env (-3) Controller.fresh =
  (Raise IndexError,
   Controller.mkState (Controller.mk true None None) false
     [EvSdkInit; EvDiscover; EvSdkDispose]).
Proof.
  apply init_index_below_range;
    [reflexivity | reflexivity | discriminate | simpl; lia].
Defined.

(** When creating the SDK object fails, the constructor raises that
    exception and makes no other call: there is nothing to release. *)
Theorem init_sdk_failure env idx e :
  fails env CallSdkInit = Some e ->
  Controller.__init__ env idx Controller.fresh = (Raise e, Controller.fresh).
Proof.
  intros Hsdk. rewrite init_unfold.
  unfold_ctl. unfold Controller.fresh. simpl. rewrite Hsdk. reflexivity.
Qed.

Lemma init_sdk_failure_witness :
  Controller.__init__
    (mkEnv (fun _ => Some SdkError) [7%nat] (fun _ => mkCamera MONOCHROME 12 2 1)
           (mkProcessor (fun _ _ _ => inl SdkError)))
    0 Controller.fresh = (Raise SdkError, Controller.fresh).
Proof. apply init_sdk_failure. reflexivity. Defined.

(** When everything up to the thread's constructor succeeds and
    starting the thread fails, the cleanup stops at [join], which raises
    [RuntimeError] for a thread that was never started: the constructor
    raises [RuntimeError] instead of the exception of [start], and neither
    the camera nor the SDK is disposed of. *)
Theorem init_thread_start_failure env idx e serial th0 :
  fails env CallSdkInit = None ->
  fails env CallDiscover = None ->
  fails env CallOpenCamera = None ->
  idx < Z.of_nat (length (camera_list env)) ->
  py_getitem (camera_list env) idx = Return serial ->
  AcquisitionThread.__init__ env (camera_of env serial) = Return th0 ->
  AcquisitionThread._started th0 = false ->
  fails env CallThreadStart = Some e ->
  Controller.__init__ env idx Controller.fresh =
  (Raise RuntimeError,
   Controller.mkState
     (Controller.mk true (Some (camera_of env serial)) (Some th0)) false
     [EvSdkInit; EvDiscover; EvOpenCamera serial; EvThreadStop]).
Proof.
  intros Hsdk Hdisc Hopen Hidx Hget Hth0 Hns Hstart. rewrite init_unfold.
  assert (camera_list env <> []) as Hne.
  { intros E. rewrite E in Hget. unfold py_getitem in Hget. simpl in Hget.
    destruct (idx <? 0); simpl in Hget;
      repeat (destruct (_ <=? _) in Hget; simpl in Hget);
      repeat (destruct (_ <? _) in Hget; simpl in Hget); try discriminate;
      rewrite lookup_nil in Hget; discriminate. }
  unfold_ctl. unfold Controller.fresh. simpl. rewrite Hsdk. simpl.
  rewrite Hdisc. simpl. rewrite bool_decide_eq_false_2 by done.
  destruct (Z.geb_spec idx (Z.of_nat (length (camera_list env)))); [lia|].
  rewrite Hget. simpl. rewrite Hopen. simpl. rewrite Hth0. simpl.
  rewrite Hstart. simpl. rewrite Hns. reflexivity.
Qed.

Lemma init_thread_start_failure_witness :
  Controller.__init__
    (mkEnv (fun c => match c with CallThreadStart => Some SdkError | _ => None end)
           [7%nat] (fun _ => mkCamera MONOCHROME 12 2 1)
           (mkProcessor (fun _ _ _ => inl SdkError)))
    0 Controller.fresh =
  (Raise RuntimeError,
   Controller.mkState
     (Controller.mk true (Some (mkCamera MONOCHROME 12 2 1))
        (Some (AcquisitionThread.mk (mkCamera MONOCHROME 12 2 1) false false None 12
                 (CircularQueue 2) 0 false [] [EvSetPollTimeout 0])))
     false
     [EvSdkInit; EvDiscover; EvOpenCamera 7; EvThreadStop]).
Proof.
  exact (init_thread_start_failure
           (mkEnv (fun c => match c with CallThreadStart => Some SdkError | _ => None end)
                  [7%nat] (fun _ => mkCamera MONOCHROME 12 2 1)
                  (mkProcessor (fun _ _ _ => inl SdkError)))
           0 SdkError 7%nat
           (AcquisitionThread.mk (mkCamera MONOCHROME 12 2 1) false false None 12
              (CircularQueue 2) 0 false [] [EvSetPollTimeout 0])
           eq_refl eq_refl eq_refl ltac:(simpl; lia) eq_refl eq_refl eq_refl eq_refl).
Defined.

(** [close] never changes the controller's attributes, whether it
    returns or raises: the handles stay set and the queue keeps its
    frames. It only adds release calls to those already made. *)
Theorem close_keeps_handles s :
  Controller.self (state_after Controller.close s) = Controller.self s /\
  exists more,
    Controller.calls (state_after Controller.close s) = Controller.calls s ++ more /\
    Forall (fun e => is_release e = true) more.
Proof.
  destruct s as [[sdk cam th] armed log]. unfold state_after.
  unfold_ctl. simpl.
  destruct th as [th|]; simpl;
    [destruct (AcquisitionThread._started th); simpl|];
    destruct cam; simpl; destruct armed; simpl; destruct sdk; simpl;
    (split; [reflexivity|]);
    rewrite <- ?app_assoc; simpl;
    first [ eexists; split; [reflexivity|]; repeat constructor
          | exists []; split; [by rewrite app_nil_r|constructor] ].
Qed.

Lemma take_repeat {X : Type} (x : X) (k n : nat) :
  take k (repeat x n) = repeat x (k `min` n).
Proof.
  revert n. induction k as [|k IH]; intros [|n]; simpl; [done..|].
  by rewrite IH.
Qed.

(** With the loop at rest, [n] calls of [get_nowait] hand out the
    queued frames oldest first and then [(None, None)] for every further
    call. *)
Theorem get_nowait_drains (n : nat) : forall s th running,
  Controller._acquisition_thread (Controller.self s) = Some th ->
  result_of (Controller.interleave running (repeat Controller.Consume n)) s =
  Return (take n (queue (AcquisitionThread._image_queue th)
                  ++ repeat (PyTuple [PyNone; PyNone]) n)).
Proof.
  unfold result_of.
  induction n as [|n IH]; intros s th running Hth; [done|].
  cbn [repeat Controller.interleave]. unfold Controller.mbind at 1.
  destruct (queue (AcquisitionThread._image_queue th)) as [|x rest] eqn:E.
  - rewrite (ctl_get_nowait_nil s th Hth E). unfold Controller.mbind at 1.
    specialize (IH s th running Hth). rewrite E in IH. simpl in IH.
    destruct (Controller.interleave running (repeat Controller.Consume n) s)
      as [r s'] eqn:Er. simpl in IH. subst r. simpl.
    by rewrite firstn_all2 by (rewrite repeat_length; lia).
  - rewrite (ctl_get_nowait_cons s th x rest Hth E). cbv beta iota.
    unfold Controller.mbind at 1.
    match goal with |- context [Controller.interleave running _ ?s1] =>
      specialize (IH s1 _ running eq_refl);
      destruct (Controller.interleave running (repeat Controller.Consume n) s1)
        as [r s'] eqn:Er end.
    simpl in IH. subst r. simpl. do 2 f_equal.
    rewrite !take_app. f_equal.
    change (PyTuple [PyNone; PyNone] :: repeat (PyTuple [PyNone; PyNone]) n)
      with (repeat (PyTuple [PyNone; PyNone]) (S n)).
    rewrite !take_repeat. f_equal. lia.
Qed.

Lemma get_nowait_drains_witness :
  result_of (Controller.interleave false (repeat Controller.Consume 3))
    (state_after
       (Controller.interleave true
          [Controller.Produce (PollFrame (raw_frame 4095 0));
           Controller.Produce (PollFrame (raw_frame 16 32))])
       (state_after (Controller.__init__ mono_env 0) Controller.fresh)) =
  Return [PyTuple [PyArray (mkArray [1; 2] [255; 0]); PyInt 0];
          PyTuple [PyArray (mkArray [1; 2] [1; 2]); PyInt 1];
          PyTuple [PyNone; PyNone]].
Proof.
  match goal with |- result_of _ ?s = _ =>
    rewrite (get_nowait_drains 3 s _ false eq_refl) end.
  reflexivity.
Defined.

Lemma frame_pair_inv (o : pyobj) :
  is_frame_pair o = true -> exists a n, o = PyTuple [PyArray a; PyInt n].
Proof.
  destruct o as [| | |l]; try discriminate.
  destruct l as [|x [|y [|z l]]]; simpl; try discriminate;
    destruct x; try discriminate; destruct y; try discriminate; eauto.
Qed.

(** Appending a frame numbered by the counter, after dropping the head or
    not, keeps a queue ordered. *)
Lemma ordered_after_put lo th im q :
  ordered_queue lo th ->
  put_nowait (AcquisitionThread._image_queue th)
    (PyTuple [PyArray im; PyInt (AcquisitionThread._frame_cnt th)]) = Return q ->
  ordered_queue lo
    (AcquisitionThread.set_frame_cnt
       (AcquisitionThread.add_produced (AcquisitionThread.set_queue th q)
          (PyTuple [PyArray im; PyInt (AcquisitionThread._frame_cnt th)]))
       (AcquisitionThread._frame_cnt th + 1)).
Proof.
  intros (Hm & Hsz & Hfp & Hsort & Hbd & Hlo) Hput.
  unfold put_nowait in Hput. rewrite put_eq in Hput. inversion Hput as [Hq]. clear Hput Hq.
  unfold ordered_queue. simpl. rewrite Hm. unfold _qsize in *. simpl.
  set (old := queue (AcquisitionThread._image_queue th)) in *.
  set (kept := if 2 <=? Z.of_nat (length old) then tail old else old).
  assert (Forall (fun o => is_frame_pair o = true) kept /\
          StronglySorted Z.lt (delivered kept) /\
          Forall (fun n => lo <= n < AcquisitionThread._frame_cnt th) (delivered kept) /\
          Z.of_nat (length kept) <= 1) as (Hk1 & Hk2 & Hk3 & Hk4).
  { subst kept. destruct (Z.leb_spec 2 (Z.of_nat (length old))); simpl.
    - destruct old as [|y rest]; simpl in *; [lia|].
      inversion Hfp as [|? ? Hy Hrest]; subst.
      destruct (frame_pair_inv y Hy) as (a & n & ->).
      unfold delivered in *. simpl in *.
      apply StronglySorted_cons in Hsort as [_ Hsort].
      inversion Hbd; subst.
      split; [done|]. split; [done|]. split; [done|]. lia.
    - split; [done|]. split; [done|]. split; [done|]. lia. }
  clearbody kept.
  split; [done|]. split; [rewrite length_app; simpl; lia|].
  split; [apply Forall_app; split; [done|by repeat constructor]|].
  unfold delivered in *. rewrite omap_app. simpl.
  split.
  - apply StronglySorted_app_2; [|done|repeat constructor].
    intros x1 x2 Hx1 Hx2. apply list_elem_of_singleton in Hx2 as ->.
    rewrite Forall_forall in Hk3. apply Hk3 in Hx1. lia.
  - split; [|lia]. apply Forall_app. split.
    + eapply Forall_impl; [exact Hk3|]. simpl. intros; lia.
    + repeat constructor; lia.
Qed.

(** The invariant of a streaming controller under any interleaving: the
    queue stays ordered and within two items, the consumer's calls and the
    loop's passes make no controller call and touch neither the SDK nor
    the camera handle, and the sequence numbers handed out increase. *)
Lemma interleave_inv acts : forall running lo s th,
  Controller._acquisition_thread (Controller.self s) = Some th ->
  ordered_queue lo th ->
  exists items s' th' lo',
    Controller.interleave running acts s = (Return items, s') /\
    Controller._acquisition_thread (Controller.self s') = Some th' /\
    ordered_queue lo' th' /\ lo <= lo' /\
    AcquisitionThread.same_setup th th' /\
    Controller.calls s' = Controller.calls s /\
    Controller.is_armed s' = Controller.is_armed s /\
    Controller._sdk (Controller.self s') = Controller._sdk (Controller.self s) /\
    Controller._camera (Controller.self s') = Controller._camera (Controller.self s) /\
    StronglySorted Z.lt (delivered items) /\
    Forall (fun n => lo <= n) (delivered items).
Proof.
  induction acts as [|[p|] acts IH]; intros running lo s th Hth Hord; simpl.
  - exists [], s, th, lo. unfold Controller.ret.
    split; [done|]. split; [done|]. split; [done|]. split; [lia|].
    split; [apply same_setup_refl|].
    split; [done|]. split; [done|]. split; [done|]. split; [done|].
    split; constructor.
  - destruct running; [|by apply IH].
    destruct s as [[sdk cam th'] armed log]. simpl in *. subst th'.
    unfold Controller.mbind at 1. unfold Controller.get_self at 1. simpl.
    unfold Controller.mbind at 1. unfold Controller.lift at 1.
    destruct (loop_step_cases th p) as [(im & q & Hput & E)|[b E]]; rewrite E; simpl.
    + unfold Controller.mbind at 1. unfold Controller.set_self at 1. simpl.
      match goal with |- context [Controller.interleave true acts ?s1] =>
        destruct (IH true lo s1 _ eq_refl (ordered_after_put lo th im q Hord Hput))
          as (items & s' & th' & lo' & Hrun & Hth' & Hord' & Hlo & Hs & Hc & Ha & Hsdk & Hcam & Hso & Hge)
      end.
      exists items, s', th', lo'. split; [exact Hrun|]. split; [done|].
      split; [done|]. split; [done|]. split; [|done].
      eapply same_setup_trans; [|exact Hs]. by repeat split.
    + unfold Controller.mbind at 1. unfold Controller.set_self at 1. simpl.
      match goal with |- context [Controller.interleave b acts ?s1] =>
        destruct (IH b lo s1 th eq_refl Hord)
          as (items & s' & th' & lo' & Hrun & Hrest)
      end.
      exists items, s', th', lo'. split; [exact Hrun|]. exact Hrest.
  - unfold Controller.mbind at 1.
    destruct (queue (AcquisitionThread._image_queue th)) as [|x rest] eqn:E.
    + rewrite (ctl_get_nowait_nil s th Hth E).
      destruct (IH running lo s th Hth Hord)
        as (items & s' & th' & lo' & Hrun & Hrest).
      unfold Controller.mbind. rewrite Hrun. unfold Controller.ret.
      exists (PyTuple [PyNone; PyNone] :: items), s', th', lo'.
      split; [done|]. exact Hrest.
    + rewrite (ctl_get_nowait_cons s th x rest Hth E). cbv beta iota.
      destruct Hord as (Hm & Hsz & Hfp & Hsort & Hbd & Hlo).
      rewrite E in Hfp, Hsort, Hbd. unfold _qsize in Hsz. rewrite E in Hsz.
      inversion Hfp as [|? ? Hx Hrest]; subst.
      destruct (frame_pair_inv x Hx) as (a & n & ->).
      unfold delivered in Hsort, Hbd. simpl in Hsort, Hbd, Hsz.
      apply StronglySorted_cons in Hsort as [Hhd Hsort].
      inversion Hbd as [|? ? Hn Hbd']; subst.
      unfold Controller.mbind at 1.
      match goal with |- context [Controller.interleave running acts ?s1] =>
        destruct (IH running (n + 1) s1 _ eq_refl)
          as (items & s' & th' & lo' & Hrun & Hth' & Hord' & Hlo' & Hs & Hc & Ha & Hsdk & Hcam & Hso & Hge)
      end.
      { unfold ordered_queue. simpl. unfold _qsize. simpl.
        split; [done|]. split; [lia|]. split; [done|]. split; [done|].
        split; [|lia]. rewrite Forall_forall in Hhd, Hbd'. apply Forall_forall.
        intros m Hin. specialize (Hhd m Hin). specialize (Hbd' m Hin). lia. }
      rewrite Hrun. unfold Controller.ret.
      exists (PyTuple [PyArray a; PyInt n] :: items), s', th', lo'.
      split; [done|]. split; [done|]. split; [done|]. split; [lia|].
      split; [eapply same_setup_trans; [|exact Hs]; by repeat split|].
      split; [done|]. split; [done|]. split; [done|]. split; [done|].
      unfold delivered in *. simpl. split.
      * apply StronglySorted_cons. split; [|done].
        eapply Forall_impl; [exact Hge|]. simpl. intros; lia.
      * constructor; [lia|]. eapply Forall_impl; [exact Hge|]. simpl. intros; lia.
Qed.

(** A controller whose constructor returned: its state, and the ordered,
    empty queue of its thread. *)
Lemma init_ordered env idx s :
  Controller.__init__ env idx Controller.fresh = (Return tt, s) ->
  exists serial th,
    s = Controller.mkState
          (Controller.mk true (Some (camera_of env serial)) (Some th)) true
          [EvSdkInit; EvDiscover; EvOpenCamera serial; EvThreadStart;
           EvSetFramesPerTrigger 0; EvArm 2; EvTrigger; EvName] /\
    AcquisitionThread._started th = true /\
    ordered_queue 0 th.
Proof.
  intros H. apply init_return in H.
  destruct (init_body_return env idx s H) as (serial & th0 & _ & Hth0 & ->).
  exists serial, (AcquisitionThread.set_started th0 true).
  split; [done|]. split; [done|].
  unfold AcquisitionThread.__init__, AcquisitionThread.attempt in Hth0.
  destruct (SENSOR_TYPE_eqb _ _);
    repeat (destruct (fails env _); simpl in Hth0; [discriminate|]);
    inversion Hth0; subst th0; unfold ordered_queue, delivered; simpl;
    (split; [done|]); (split; [unfold _qsize; simpl; lia|]);
    (split; [constructor|]); (split; [constructor|]); (split; [constructor|]); lia.
Qed.

(** Once the constructor has returned, in any interleaving of loop
    passes and [get_nowait] calls the sequence numbers of the frames
    handed out increase strictly from call to call: no frame is handed
    out twice or out of order, though some may be skipped. *)
Theorem get_nowait_sequence_increases env idx s acts :
  Controller.__init__ env idx Controller.fresh = (Return tt, s) ->
  exists items s',
    Controller.interleave true acts s = (Return items, s') /\
    StronglySorted Z.lt (delivered items) /\
    Forall (fun n => 0 <= n) (delivered items).
Proof.
  intros Hinit. destruct (init_ordered env idx s Hinit) as (serial & th & -> & _ & Hord).
  match goal with |- context [Controller.interleave true acts ?s0] =>
    destruct (interleave_inv acts true 0 s0 th eq_refl Hord)
      as (items & s' & th' & lo' & Hrun & _ & _ & _ & _ & _ & _ & _ & _ & Hso & Hge) end.
  by exists items, s'.
Qed.

Lemma get_nowait_sequence_increases_witness :
  exists items s',
    Controller.interleave true
      [Controller.Produce (PollFrame (raw_frame 16 32));
       Controller.Produce (PollFrame (raw_frame 48 64));
       Controller.Produce (PollFrame (raw_frame 80 96));
       Controller.Consume; Controller.Consume; Controller.Consume]
      (state_after (Controller.__init__ mono_env 0) Controller.fresh) =
    (Return items, s') /\
    delivered items = [1; 2].
Proof.
  destruct (get_nowait_sequence_increases mono_env 0
              (state_after (Controller.__init__ mono_env 0) Controller.fresh)
              [Controller.Produce (PollFrame (raw_frame 16 32));
               Controller.Produce (PollFrame (raw_frame 48 64));
               Controller.Produce (PollFrame (raw_frame 80 96));
               Controller.Consume; Controller.Consume; Controller.Consume]
              eq_refl) as (items & s' & Hrun & _).
  exists items, s'. split; [exact Hrun|].
  vm_compute in Hrun. inversion Hrun; subst. reflexivity.
Defined.

(** Streaming leaves the devices alone: in any interleaving of loop
    passes and [get_nowait] calls on a constructed controller, no SDK or
    thread call is made by the controller, the camera stays armed, the
    handles stay as they are, and the queue keeps its capacity of 2 and
    never holds more than two frames. *)
Theorem streaming_keeps_bounds env idx s acts :
  Controller.__init__ env idx Controller.fresh = (Return tt, s) ->
  exists items s' q,
    Controller.interleave true acts s = (Return items, s') /\
    Controller._image_queue (Controller.self s') = Some q /\
    maxsize q = 2 /\ _qsize q <= 2 /\
    Controller.calls s' = Controller.calls s /\
    Controller.is_armed s' = true /\
    Controller._sdk (Controller.self s') = Controller._sdk (Controller.self s) /\
    Controller._camera (Controller.self s') = Controller._camera (Controller.self s).
Proof.
  intros Hinit. destruct (init_ordered env idx s Hinit) as (serial & th & -> & _ & Hord).
  match goal with |- context [Controller.interleave true acts ?s0] =>
    destruct (interleave_inv acts true 0 s0 th eq_refl Hord)
      as (items & s' & th' & lo' & Hrun & Hth' & Hord' & _ & _ & Hc & Ha & Hsdk & Hcam & _) end.
  exists items, s', (AcquisitionThread._image_queue th').
  split; [done|]. unfold Controller._image_queue. rewrite Hth'. simpl.
  destruct Hord' as (Hm & Hsz & _). done.
Qed.

Lemma streaming_keeps_bounds_witness :
  exists items s' q,
    Controller.interleave true
      [Controller.Produce (PollFrame (raw_frame 16 32));
       Controller.Produce (PollFrame (raw_frame 48 64));
       Controller.Produce (PollFrame (raw_frame 80 96))]
      (state_after (Controller.__init__ mono_env 0) Controller.fresh) =
    (Return items, s') /\
    Controller._image_queue (Controller.self s') = Some q /\
    maxsize q = 2 /\ _qsize q <= 2.
Proof.
  destruct (streaming_keeps_bounds mono_env 0
              (state_after (Controller.__init__ mono_env 0) Controller.fresh)
              [Controller.Produce (PollFrame (raw_frame 16 32));
               Controller.Produce (PollFrame (raw_frame 48 64));
               Controller.Produce (PollFrame (raw_frame 80 96))]
              eq_refl) as (items & s' & q & Hrun & Hq & Hm & Hsz & _).
  exists items, s', q. exact (conj Hrun (conj Hq (conj Hm Hsz))).
Defined.

(** Scoped use. When the constructor returns, a [with] block whose
    body is any interleaving of loop passes and [get_nowait] calls ends by
    returning what the body returned, after exactly one stop and join of
    the thread, one disarm and one dispose of the camera and one dispose
    of the SDK, in that order, with the camera no longer armed. When the
    constructor raises, the block raises the same exception in the same
    state: neither the body nor [__exit__] runs, so the cleanup of the
    constructor is the only one. *)
Theorem scoped_use_closes_once env idx acts :
  (forall s0,
     Controller.__init__ env idx Controller.fresh = (Return tt, s0) ->
     exists items s1 sf,
       Controller.interleave true acts s0 = (Return items, s1) /\
       with_controller env idx (Controller.interleave true acts) Controller.fresh =
         (Return items, sf) /\
       Controller.calls sf =
         Controller.calls s0 ++
         [EvThreadStop; EvThreadJoin; EvDisarm; EvCameraDispose; EvSdkDispose] /\
       Forall (fun e => is_release e = false) (Controller.calls s0) /\
       Controller.is_armed sf = false) /\
  (forall e s1,
     Controller.__init__ env idx Controller.fresh = (Raise e, s1) ->
     with_controller env idx (Controller.interleave true acts) Controller.fresh =
       (Raise e, s1)).
Proof.
  split.
  - intros s0 Hinit.
    destruct (init_ordered env idx s0 Hinit) as (serial & th & Hs0 & Hst & Hord).
    destruct (interleave_inv acts true 0 s0 th) as
      (items & s1 & th' & lo' & Hrun & Hth' & _ & _ & Hs & Hc & Ha & Hsdk & Hcam & _);
      [by rewrite Hs0|done|].
    assert (forall t, Controller._acquisition_thread (Controller.self s1) = Some t ->
                      AcquisitionThread._started t = true) as Hstarted.
    { intros t Ht. rewrite Hth' in Ht. inversion Ht; subst t.
      destruct Hs as (_ & _ & _ & _ & _ & -> & _). done. }
    pose proof (close_eq s1 Hstarted) as Hclose.
    eexists items, s1, _. split; [exact Hrun|].
    unfold with_controller. unfold Controller.mbind at 1. rewrite Hinit.
    unfold Controller.mbind at 1. unfold Controller.__enter__, Controller.ret at 1.
    rewrite Hrun. unfold Controller.__exit__, Controller.mbind. rewrite Hclose.
    unfold Controller.ret. split; [reflexivity|]. simpl.
    rewrite Hth', Hcam, Hsdk, Ha, Hc, Hs0. simpl.
    split; [done|]. split; [repeat constructor|done].
  - intros e s1 Hinit. unfold with_controller.
    unfold Controller.mbind at 1. by rewrite Hinit.
Qed.

Lemma scoped_use_closes_once_witness :
  exists items sf,
    with_controller mono_env 0
      (Controller.interleave true
         [Controller.Produce (PollFrame (raw_frame 16 32)); Controller.Consume])
      Controller.fresh = (Return items, sf) /\
    Controller.calls sf =
      [EvSdkInit; EvDiscover; EvOpenCamera 7; EvThreadStart;
       EvSetFramesPerTrigger 0; EvArm 2; EvTrigger; EvName;
       EvThreadStop; EvThreadJoin; EvDisarm; EvCameraDispose; EvSdkDispose].
Proof.
  destruct (proj1 (scoped_use_closes_once mono_env 0
              [Controller.Produce (PollFrame (raw_frame 16 32)); Controller.Consume])
              (state_after (Controller.__init__ mono_env 0) Controller.fresh)
              eq_refl) as (items & s1 & sf & _ & Hwith & Hcalls & _).
  exists items, sf. split; [exact Hwith|]. rewrite Hcalls. reflexivity.
Defined.

End ControllerMore.
